(** * utils/embed.py: wrappers around the Poincare embedding trainer,
      the embedding loader and the K-fold evaluation helper

    The Python module consists of three functions, [train_embeddings],
    [load_embeddings] and [evaluate_model].  Each of them is a sequence
    of calls into third-party libraries.  The embedding below keeps the
    calls in the order the source makes them: a function that has side
    effects is a computation in a state-and-exception monad whose state
    (the "world") holds whatever the calls can change, together with a
    log of the library calls made so far. *)

From Stdlib Require Import ZArith QArith Qround Ascii.
From stdpp Require Import base option list functions strings gmap pretty.

Open Scope string_scope.
Open Scope list_scope.
Open Scope nat_scope.

(** ** Exceptions, outcomes and the state-and-exception monad *)

Inductive exn : Type :=
| ValueError
| IndexError
| FileNotFoundError
| ParserError
| NotImplementedError
| PermissionError.

Inductive outcome (A : Type) : Type :=
| Ok (a : A)
| Raised (e : exn).
Arguments Ok {A} a.
Arguments Raised {A} e.

Global Instance outcome_ret : MRet outcome := λ A a, Ok a.
Global Instance outcome_bind : MBind outcome := λ A B f m,
  match m with
  | Ok a => f a
  | Raised e => Raised e
  end.

Global Instance outcome_fmap : FMap outcome := λ A B f m,
  match m with
  | Ok a => Ok (f a)
  | Raised e => Raised e
  end.

(** A computation over a world [W]: it yields a value or raises, and in
    both cases leaves a world behind.  What was done before an exception
    stays done. *)
Definition M (W A : Type) : Type := W → outcome A * W.

Global Instance M_ret {W} : MRet (M W) := λ A a w, (Ok a, w).
Global Instance M_bind {W} : MBind (M W) := λ A B f m w,
  match m w with
  | (Ok a, w') => f a w'
  | (Raised e, w') => (Raised e, w')
  end.

(** A pure step that may raise. *)
Definition lift {W A} (o : outcome A) : M W A := λ w, (o, w).

(** The value [None] that a bare [return] yields. *)
Inductive NoneType : Type := None_.

(** ** The embedding library, as [train_embeddings] uses it *)

(** [PoincareRelations(file_path, delimiter)]: the reader object only
    records where the relations are and how they are delimited. *)
Record PoincareRelations : Type := Relations {
  file_path : string;
  delimiter : string
}.

(** The files are a map from files to their text.  A path names a
    file through [resolve], so that two spellings of the path of one file
    are one key; [write_refused] tells why a file cannot be created or
    replaced at a path, when it cannot (a missing directory, no
    permission). *)
Class FileSystem := {
  resolve : string → string;
  write_refused : gmap string string → string → option exn
}.

(** The trainer is third-party code.  Its model objects are a type
    [Model].  Building a model and training it work on the files and on
    the library's hidden state [E] (random numbers, caches); either may
    raise, and leaves files and state behind also then.
    [word2vec_format] is the text that [model.kv.save_word2vec_format]
    writes.  [V] is the type of the values the wrapper hands over without
    looking at them. *)
Class Poincare (V E Model : Type) := {
  PoincareModel_init :
    PoincareRelations → V → V → V → V → V → V →
    gmap string string * E → outcome Model * (gmap string string * E);
  PoincareModel_train :
    Model → V → V → V →
    gmap string string * E → outcome Model * (gmap string string * E);
  word2vec_format : Model → string
}.

(** A trainer that creates, changes and removes no file while it builds
    and trains a model. *)
Definition keeps_files {V E Model : Type} (trainer : Poincare V E Model) : Prop :=
  (∀ rel size alpha burn_in burn_in_alpha workers negative s,
     (PoincareModel_init rel size alpha burn_in burn_in_alpha workers negative s).2.1
     = s.1)
  ∧ (∀ m epochs print_every batch_size s,
       (PoincareModel_train m epochs print_every batch_size s).2.1 = s.1).

(** The library calls [train_embeddings] can make, with their arguments. *)
Inductive gensim_call (V : Type) : Type :=
| call_PoincareRelations (file_path delimiter : string)
| call_PoincareModel (train_data : PoincareRelations)
    (size alpha burn_in burn_in_alpha workers negative : V)
| call_train (epochs print_every batch_size : V)
| call_save_word2vec_format (fname : string).
Arguments call_PoincareRelations {V} _ _.
Arguments call_PoincareModel {V} _ _ _ _ _ _ _.
Arguments call_train {V} _ _ _.
Arguments call_save_word2vec_format {V} _.

(** The world of [train_embeddings]: the files, the library's hidden
    state and the log of calls. *)
Record gensim_world (V E : Type) : Type := GensimWorld {
  files : gmap string string;
  gensim_state : E;
  gensim_calls : list (gensim_call V)
}.
Arguments GensimWorld {V E} _ _ _.
Arguments files {V E} _.
Arguments gensim_state {V E} _.
Arguments gensim_calls {V E} _.

Section gensim_primitives.
Context {V E Model : Type} `{!Poincare V E Model, !FileSystem}.

Definition new_PoincareRelations (file_path delimiter : string)
  : M (gensim_world V E) PoincareRelations :=
  λ w, (Ok (Relations file_path delimiter),
        GensimWorld (files w) (gensim_state w)
          (gensim_calls w ++ [call_PoincareRelations file_path delimiter])).

Definition new_PoincareModel (train_data : PoincareRelations)
    (size alpha burn_in burn_in_alpha workers negative : V)
  : M (gensim_world V E) Model :=
  λ w, let '(r, (fs, e)) := PoincareModel_init train_data
                              size alpha burn_in burn_in_alpha workers negative
                              (files w, gensim_state w) in
       (r,
        GensimWorld fs e
          (gensim_calls w ++ [call_PoincareModel train_data
                                size alpha burn_in burn_in_alpha workers negative])).

Definition model_train (model : Model) (epochs print_every batch_size : V)
  : M (gensim_world V E) Model :=
  λ w, let '(r, (fs, e)) := PoincareModel_train model epochs print_every batch_size
                              (files w, gensim_state w) in
       (r,
        GensimWorld fs e
          (gensim_calls w ++ [call_train epochs print_every batch_size])).

Definition save_word2vec_format (model : Model) (fname : string)
  : M (gensim_world V E) unit :=
  λ w, let log := gensim_calls w ++ [call_save_word2vec_format fname] in
       match write_refused (files w) fname with
       | Some err => (Raised err, GensimWorld (files w) (gensim_state w) log)
       | None =>
           (Ok tt,
            GensimWorld (<[resolve fname := word2vec_format model]> (files w))
              (gensim_state w) log)
       end.

(** *** [train_embeddings] (embed.py, lines 13-37) *)
Definition train_embeddings (input_path delimiter output_path : string)
    (size alpha burn_in burn_in_alpha workers negative
     epochs print_every batch_size : V)
  : M (gensim_world V E) NoneType :=
  relations ← new_PoincareRelations input_path delimiter;
  model ← new_PoincareModel relations
            size alpha burn_in burn_in_alpha workers negative;
  model ← model_train model epochs print_every batch_size;
  save_word2vec_format model output_path;;
  mret None_.
End gensim_primitives.

(** Values of the keyword defaults in the signatures: Python integers,
    and decimal literals kept as exact rationals. *)
Inductive pynum : Type :=
| PyInt (n : Z)
| PyFloat (literal : Q).

(** [train_embeddings] called with the three positional arguments only:
    every keyword parameter takes the default of the signature. *)
Definition train_embeddings_defaults {E Model : Type}
    `{!Poincare pynum E Model, !FileSystem}
    (input_path delimiter output_path : string)
  : M (gensim_world pynum E) NoneType :=
  train_embeddings input_path delimiter output_path
    (PyInt 2) (PyFloat 0.1) (PyInt 10) (PyFloat 0.01) (PyInt 1) (PyInt 10)
    (PyInt 100) (PyInt 500) (PyInt 10).

(** ** The table library, as [load_embeddings] uses it *)

Inductive scalar : Type :=
| SInt (z : Z)
| SStr (s : string)
| SFloat (q : Q).

(** The row labels of a table: the default labels [0 .. n-1], or one
    tuple of labels per row, with one optional name per level. *)
Inductive Index : Type :=
| RangeIndex
| LabelIndex (names : list (option string)) (labels : list (list scalar)).

Record DataFrame : Type := Frame {
  index : Index;
  columns : list string;
  rows : list (list scalar)
}.

Definition nlevels (i : Index) : nat :=
  match i with
  | RangeIndex => 1
  | LabelIndex names _ => length names
  end.

(** Modelled from the spec: the table library is not under src/.
    [reset_index] (no arguments) turns every level of the row labels
    into a leading column and relabels the rows [0 .. n-1].  The new
    columns are named after the levels; an unnamed single level is named
    [index] (or [level_0] when a column [index] exists), an unnamed level
    of a multi-level index [level_i]. *)
Definition index_column_names (df : DataFrame) : list string :=
  let dflt := if bool_decide ("index" ∈ columns df) then "level_0" else "index" in
  match index df with
  | RangeIndex => [dflt]
  | LabelIndex [name] _ => [default dflt name]
  | LabelIndex names _ => imap (λ i name, default ("level_" +:+ pretty i) name) names
  end.

Definition index_column_values (df : DataFrame) : list (list scalar) :=
  match index df with
  | RangeIndex => imap (λ i _, [SInt (Z.of_nat i)]) (rows df)
  | LabelIndex _ labels => labels
  end.

(** Modelled from the spec: the table library is not under src/.
    The levels are inserted at position 0 from the last to the first;
    inserting a column whose name is already there raises. *)
Fixpoint insert_columns (names cols : list string) : outcome (list string) :=
  match names with
  | [] => Ok cols
  | name :: names' =>
      cols' ← insert_columns names' cols;
      if bool_decide (name ∈ cols') then Raised ValueError else Ok (name :: cols')
  end.

Definition reset_index (df : DataFrame) : outcome DataFrame :=
  cols ← insert_columns (index_column_names df) (columns df);
  Ok (Frame RangeIndex cols (zip_with app (index_column_values df) (rows df))).

(** Modelled from the spec: the table library is not under src/.
    Assigning to [df.columns] renames the columns in place and raises
    when the number of names differs from the number of columns. *)
Definition set_columns (df : DataFrame) (names : list string) : outcome DataFrame :=
  if length names =? length (columns df)
  then Ok (Frame (index df) names (rows df))
  else Raised ValueError.

(** The text parser [read_table] is third-party code: from the text of
    a file and a delimiter it yields a table or raises. *)
Class TableReader := read_table : string → string → outcome DataFrame.

Definition pd_read_table `{!TableReader} (fs : gmap string string)
    (file_path delimiter : string) : outcome DataFrame :=
  match fs !! file_path with
  | Some text => read_table text delimiter
  | None => Raised FileNotFoundError
  end.

(** *** [load_embeddings] (embed.py, lines 39-44) *)
Definition load_embeddings `{!TableReader} (fs : gmap string string)
    (file_path delim : string) : outcome DataFrame :=
  emb ← pd_read_table fs file_path " ";
  emb ← reset_index emb;
  emb ← set_columns emb ["node"; "x"; "y"];
  mret emb.

(** [load_embeddings(file_path)]: [delim] takes its default. *)
Definition load_embeddings_default `{!TableReader} (fs : gmap string string)
    (file_path : string) : outcome DataFrame :=
  load_embeddings fs file_path " ".

(** The table as it is just before the columns are renamed. *)
Definition table_after_reset_index `{!TableReader} (fs : gmap string string)
    (file_path : string) : outcome DataFrame :=
  pd_read_table fs file_path " " ≫= reset_index.

(** ** The learning toolkit, as [evaluate_model] uses it *)

(** Indexing an array with an array of positions, [a[idx]]: the
    selected entries in the order of [idx]; a position past the end
    raises. *)
Definition select {A} (a : list A) (idx : list nat) : list A :=
  omap (λ i, a !! i) idx.

Definition np_index {A} (a : list A) (idx : list nat) : outcome (list A) :=
  if forallb (λ i, i <? length a) idx
  then Ok (select a idx)
  else Raised IndexError.

(** Modelled from the spec: the toolkit's K-fold splitter is not under
    src/.  The glossary has it partition the data into K subsets,
    testing on one and training on the other K-1, in rotation.  As the
    toolkit documents it: fewer than two splits are refused when the
    splitter is built, more splits than samples when it is asked to
    split; without shuffling the test sets are consecutive blocks, the
    first [n mod k] of them one sample longer than the others, and the
    train set of a fold is every other position, in increasing order. *)
Record KFold : Type := KFoldObj { n_splits : Z }.

Definition new_KFold (n_splits : Z) : outcome KFold :=
  if (n_splits <=? 1)%Z then Raised ValueError else Ok (KFoldObj n_splits).

Definition fold_sizes (n_samples k : nat) : list nat :=
  (λ i, n_samples / k + (if i <? n_samples mod k then 1 else 0)) <$> seq 0 k.

Fixpoint test_blocks (current : nat) (sizes : list nat) : list (list nat) :=
  match sizes with
  | [] => []
  | fold_size :: sizes' =>
      seq current fold_size :: test_blocks (current + fold_size) sizes'
  end.

Definition train_of (n_samples : nat) (test : list nat) : list nat :=
  filter (λ i, i ∉ test) (seq 0 n_samples).

Definition KFold_split (kf : KFold) (n_samples : nat)
  : outcome (list (list nat * list nat)) :=
  let k := Z.to_nat (n_splits kf) in
  if n_samples <? k then Raised ValueError
  else Ok ((λ test, (train_of n_samples test, test))
             <$> test_blocks 0 (fold_sizes n_samples k)).

(** The folds that the loop of [evaluate_model] runs over:
    [KFold(n_splits=cv).split(X)]. *)
Definition cv_folds {A} (X : list A) (cv : Z) : outcome (list (list nat * list nat)) :=
  kf ← new_KFold cv;
  KFold_split kf (length X).

(** Modelled from the spec: the toolkit's [train_test_split] is not
    under src/.  As the toolkit documents it, the call is refused with a
    [ValueError], before anything is drawn, when the arrays differ in
    length, when the test size is not a fraction strictly between 0 and
    1, and when the train part would be empty: the test part gets
    [ceil (test_size * n)] of the [n] samples and the train part the
    rest. *)
Definition split_refused {A B} (X : list A) (y : list B) (test_size : Q) : bool :=
  let n := Z.of_nat (length X) in
  let n_test := Qceiling (test_size * inject_Z n) in
  negb (length X =? length y)
  || Qle_bool test_size 0 || Qle_bool 1 test_size
  || (n - n_test <=? 0)%Z.

(** The classifier-like object: [fit] changes it, [predict] reads it.
    Both are taken not to raise. *)
Class Estimator (Clf feat label pred V : Type) := {
  fit : Clf → list feat → list label → V → Clf;
  predict : Clf → list feat → pred
}.

(** The other third-party functions.  [train_test_split] is the split
    proper, of arrays that the toolkit accepts; it draws from the
    library's random state [E].  The others are taken not to raise. *)
Class Toolkit (E feat label pred score : Type) := {
  train_test_split :
    list feat → list label → Q → E →
    (list feat * list feat * list label * list label) * E;
  np_argmax : pred → Z → list nat;
  classification_report : list label → list nat → string;
  f1_score : list label → list nat → string → score
}.

(** The library calls [evaluate_model] can make, with their arguments.
    A model object is named by its address. *)
Inductive sk_call (feat label pred V : Type) : Type :=
| call_train_test_split (X : list feat) (y : list label) (test_size : Q)
| call_fit (model : nat) (X : list feat) (y : list label) (max_epochs : V)
| call_predict (model : nat) (X : list feat)
| call_argmax (a : pred) (axis : Z)
| call_classification_report (y_true : list label) (y_pred : list nat)
| call_print (text : string)
| call_KFold (n_splits : Z)
| call_split (n_samples : nat)
| call_f1_score (y_true : list label) (y_pred : list nat) (average : string).
Arguments call_train_test_split {feat label pred V} _ _ _.
Arguments call_fit {feat label pred V} _ _ _ _.
Arguments call_predict {feat label pred V} _ _.
Arguments call_argmax {feat label pred V} _ _.
Arguments call_classification_report {feat label pred V} _ _.
Arguments call_print {feat label pred V} _.
Arguments call_KFold {feat label pred V} _.
Arguments call_split {feat label pred V} _.
Arguments call_f1_score {feat label pred V} _ _ _.

(** The world of [evaluate_model]: the model objects by address, the
    random state, what was printed, and the log of calls. *)
Record eval_world (Clf E feat label pred V : Type) : Type := EvalWorld {
  objects : nat → Clf;
  random_state : E;
  stdout : list string;
  calls : list (sk_call feat label pred V)
}.
Arguments EvalWorld {Clf E feat label pred V} _ _ _ _.
Arguments objects {Clf E feat label pred V} _ _.
Arguments random_state {Clf E feat label pred V} _.
Arguments stdout {Clf E feat label pred V} _.
Arguments calls {Clf E feat label pred V} _.

Section sklearn_primitives.
Context {Clf E feat label pred score V : Type}.
Context `{!Estimator Clf feat label pred V, !Toolkit E feat label pred score}.

Abbreviation world := (eval_world Clf E feat label pred V).
Abbreviation call := (sk_call feat label pred V).

  (** Record a call and go on. *)
Definition logged {A} (c : call) (o : outcome A) : M world A :=
    λ w, (o, EvalWorld (objects w) (random_state w) (stdout w) (calls w ++ [c])).

Definition do_train_test_split (X : list feat) (y : list label) (test_size : Q)
    : M world (list feat * list feat * list label * list label) :=
    λ w, let log := calls w ++ [call_train_test_split X y test_size] in
         if split_refused X y test_size
         then (Raised ValueError,
               EvalWorld (objects w) (random_state w) (stdout w) log)
         else let '(parts, e) := train_test_split X y test_size (random_state w) in
              (Ok parts, EvalWorld (objects w) e (stdout w) log).

Definition model_fit (model : nat) (X : list feat) (y : list label) (max_epochs : V)
    : M world unit :=
    λ w, (Ok tt,
          EvalWorld (<[model := fit (objects w model) X y max_epochs]> (objects w))
            (random_state w) (stdout w)
            (calls w ++ [call_fit model X y max_epochs])).

Definition model_predict (model : nat) (X : list feat) : M world pred :=
    λ w, (Ok (predict (objects w model) X),
          EvalWorld (objects w) (random_state w) (stdout w)
            (calls w ++ [call_predict model X])).

Definition print (text : string) : M world unit :=
    λ w, (Ok tt,
          EvalWorld (objects w) (random_state w) (stdout w ++ [text])
            (calls w ++ [call_print text])).

  (** The body of the [for] loop over the folds (embed.py, lines 55-58),
      with the list [cv_scores] built so far. *)
Fixpoint kfold_loop (model : nat) (X : list feat) (y : list label) (max_epochs : V)
      (folds : list (list nat * list nat)) (cv_scores : list score)
    : M world (list score) :=
    match folds with
    | [] => mret cv_scores
    | (train, test) :: folds' =>
        X_train ← lift (np_index X train);
        y_train ← lift (np_index y train);
        model_fit model X_train y_train max_epochs;;
        X_test ← lift (np_index X test);
        p ← model_predict model X_test;
        y_pred ← logged (call_argmax p 1) (Ok (np_argmax p 1));
        y_test ← lift (np_index y test);
        s ← logged (call_f1_score y_test y_pred "macro")
              (Ok (f1_score y_test y_pred "macro"));
        kfold_loop model X y max_epochs folds' (cv_scores ++ [s])
    end.

  (** *** [evaluate_model] (embed.py, lines 47-59) *)
Definition evaluate_model (model : nat) (X : list feat) (y : list label)
      (max_epochs : V) (cv : Z) (report : bool) : M world (list score) :=
    (if report then
       '(X_train, X_test, y_train, y_test) ← do_train_test_split X y 0.3;
       model_fit model X_train y_train max_epochs;;
       p ← model_predict model X_test;
       y_pred ← logged (call_argmax p 1) (Ok (np_argmax p 1));
       text ← logged (call_classification_report y_test y_pred)
                (Ok (classification_report y_test y_pred));
       print text
     else mret tt);;
    kf ← logged (call_KFold cv) (new_KFold cv);
    folds ← logged (call_split (length X)) (KFold_split kf (length X));
    kfold_loop model X y max_epochs folds [].
End sklearn_primitives.

(** [evaluate_model(model, X, y)]: the keyword parameters take the
    defaults of the signature. *)
Definition evaluate_model_defaults {Clf E feat label pred score : Type}
    `{!Estimator Clf feat label pred pynum, !Toolkit E feat label pred score}
    (model : nat) (X : list feat) (y : list label)
  : M (eval_world Clf E feat label pred pynum) (list score) :=
  evaluate_model model X y (PyInt 10) 5 true.

(** ** What a run of [evaluate_model] should amount to

    The definitions of this section are not taken from the source.  They
    say, fold by fold, what the specification of [evaluate_model] expects: the
    model is fitted on the train part of a fold, asked to predict the
    test part, and scored; the next fold goes on with the model as the
    previous one left it. *)

Section evaluate_model_expected.
Context {Clf E feat label pred score V : Type}.
Context `{!Estimator Clf feat label pred V, !Toolkit E feat label pred score}.

(** The model after the fit of one fold. *)
Definition fit_fold (X : list feat) (y : list label) (max_epochs : V)
    (c : Clf) (fold : list nat * list nat) : Clf :=
  fit c (select X fold.1) (select y fold.1) max_epochs.

(** The model after the fits of several folds, one after the other. *)
Definition fit_folds (X : list feat) (y : list label) (max_epochs : V)
    (folds : list (list nat * list nat)) (c : Clf) : Clf :=
  foldl (fit_fold X y max_epochs) c folds.

(** The score of one fold, for a model in state [c] when the fold
    starts. *)
Definition fold_score (X : list feat) (y : list label) (max_epochs : V)
    (c : Clf) (fold : list nat * list nat) : score :=
  f1_score (select y fold.2)
    (np_argmax (predict (fit_fold X y max_epochs c fold) (select X fold.2)) 1)
    "macro".

Fixpoint fold_scores (X : list feat) (y : list label) (max_epochs : V)
    (c : Clf) (folds : list (list nat * list nat)) : list score :=
  match folds with
  | [] => []
  | fold :: folds' =>
      fold_score X y max_epochs c fold
      :: fold_scores X y max_epochs (fit_fold X y max_epochs c fold) folds'
  end.

(** The library calls of the folds. *)
Fixpoint folds_calls (model : nat) (X : list feat) (y : list label) (max_epochs : V)
    (c : Clf) (folds : list (list nat * list nat))
  : list (sk_call feat label pred V) :=
  match folds with
  | [] => []
  | fold :: folds' =>
      let c' := fit_fold X y max_epochs c fold in
      let p := predict c' (select X fold.2) in
      [call_fit model (select X fold.1) (select y fold.1) max_epochs;
       call_predict model (select X fold.2);
       call_argmax p 1;
       call_f1_score (select y fold.2) (np_argmax p 1) "macro"]
      ++ folds_calls model X y max_epochs c' folds'
  end.

(** The library calls made before the folds, the model after them and
    what they print. *)
Definition report_calls (model : nat) (X : list feat) (y : list label)
    (max_epochs : V) (report : bool) (c : Clf) (e : E)
  : list (sk_call feat label pred V) :=
  if report then
    let '(X_train, X_test, y_train, y_test) := (train_test_split X y 0.3 e).1 in
    let p := predict (fit c X_train y_train max_epochs) X_test in
    [call_train_test_split X y 0.3;
     call_fit model X_train y_train max_epochs;
     call_predict model X_test;
     call_argmax p 1;
     call_classification_report y_test (np_argmax p 1);
     call_print (classification_report y_test (np_argmax p 1))]
  else [].

Definition model_after_report (X : list feat) (y : list label)
    (max_epochs : V) (report : bool) (c : Clf) (e : E) : Clf :=
  if report then
    let '(X_train, _, y_train, _) := (train_test_split X y 0.3 e).1 in
    fit c X_train y_train max_epochs
  else c.

Definition report_output (X : list feat) (y : list label)
    (max_epochs : V) (report : bool) (c : Clf) (e : E) : list string :=
  if report then
    let '(X_train, X_test, y_train, y_test) := (train_test_split X y 0.3 e).1 in
    let p := predict (fit c X_train y_train max_epochs) X_test in
    [classification_report y_test (np_argmax p 1)]
  else [].

Definition random_state_after_report (X : list feat) (y : list label)
    (report : bool) (e : E) : E :=
  if report then (train_test_split X y 0.3 e).2 else e.
End evaluate_model_expected.

(** How often [fit] was called, according to a log. *)
Definition is_fit {feat label pred V} (c : sk_call feat label pred V) : bool :=
  match c with call_fit _ _ _ _ => true | _ => false end.

Definition fit_count {feat label pred V} (log : list (sk_call feat label pred V)) : nat :=
  length (filter (λ c, is_fit c = true) log).

Definition is_train_test_split {feat label pred V} (c : sk_call feat label pred V) : bool :=
  match c with call_train_test_split _ _ _ => true | _ => false end.

Definition is_print {feat label pred V} (c : sk_call feat label pred V) : bool :=
  match c with call_print _ | call_classification_report _ _ => true | _ => false end.

(** All positions of all folds are positions of [a]. *)
Definition folds_within {A} (a : list A) (folds : list (list nat * list nat)) : Prop :=
  ∀ fold, fold ∈ folds → ∀ i, i ∈ fold.1 ∨ i ∈ fold.2 → i < length a.

(** A call that belongs to the folds: neither the train/test split nor
    the report. *)
Definition fold_phase_call {feat label pred V} (c : sk_call feat label pred V) : Prop :=
  is_train_test_split c = false ∧ is_print c = false.

(** The model object a logged [fit] was called on. *)
Definition fit_target {feat label pred V} (c : sk_call feat label pred V) : option nat :=
  match c with call_fit model _ _ _ => Some model | _ => None end.

(** Every [fit] in a log is a [fit] of [model]. *)
Definition fits_only {feat label pred V} (model : nat)
    (log : list (sk_call feat label pred V)) : Prop :=
  Forall (λ c, is_fit c = true → fit_target c = Some model) log.

(** The samples a log shows the model was asked to predict, call after
    call, and the labels it shows were handed to the scoring function. *)
Definition predicted_samples {feat label pred V}
    (log : list (sk_call feat label pred V)) : list feat :=
  concat (omap (λ c, match c with call_predict _ X => Some X | _ => None end) log).

Definition scored_labels {feat label pred V}
    (log : list (sk_call feat label pred V)) : list label :=
  concat (omap (λ c, match c with call_f1_score y_true _ _ => Some y_true | _ => None end)
            log).

(** ** Stand-ins for the third-party code, for running the wrappers

    The theorems below hold for every implementation of the library
    interfaces.  To run the wrappers on concrete inputs the interfaces
    are given small implementations here; they stand for the libraries
    in examples only. *)

(** Cutting a text at every occurrence of a character. *)
Fixpoint split_on (c : ascii) (s : string) : list string :=
  match s with
  | EmptyString => [EmptyString]
  | String a s' =>
      if bool_decide (a = c) then EmptyString :: split_on c s'
      else match split_on c s' with
           | [] => [String a EmptyString]
           | field :: fields => String a field :: fields
           end
  end.

(** A reader for plain delimited text with a header line: rows longer
    than the header give their leading fields to the row labels; every
    field stays a string; anything else is refused. *)
Definition plain_reader : TableReader := λ text delimiter,
  match delimiter with
  | String c EmptyString =>
      match filter (λ l, l ≠ EmptyString) (split_on "010"%char text) with
      | [] => Raised ParserError
      | header :: lines =>
          let names := split_on c header in
          let data := (λ l, SStr <$> split_on c l) <$> lines in
          let width := default (length names) (head (length <$> data)) in
          if forallb (λ r, length r =? width) data && (length names <=? width) then
            let k := width - length names in
            Ok (Frame (if k =? 0 then RangeIndex
                       else LabelIndex (replicate k None) (take k <$> data))
                      names (drop k <$> data))
          else Raised ParserError
      end
  | _ => Raised ParserError
  end.

(** The same reader, except that it only accepts the single space. *)
Definition space_only_reader : TableReader := λ text delimiter,
  if bool_decide (delimiter = " ") then plain_reader text delimiter
  else Raised ValueError.

(** A file of two-dimensional vectors and one of three-dimensional
    vectors, in the text format the trainer saves. *)
Definition vectors_2d : string :=
  "2 2" +:+ String "010" ("a 0.5 0.25" +:+ String "010" ("b 0.125 0.75" +:+ String "010" EmptyString)).
Definition vectors_3d : string :=
  "2 3" +:+ String "010"
    ("a 0.5 0.25 0.1" +:+ String "010" ("b 0.125 0.75 0.2" +:+ String "010" EmptyString)).

Definition toy_files : gmap string string :=
  {[ "emb2.txt" := vectors_2d; "emb3.txt" := vectors_3d ]}.

(** A file of one-dimensional vectors: its rows have as many fields as
    its first line. *)
Definition vectors_1d : string :=
  "2 1" +:+ String "010" ("a 0.5" +:+ String "010" ("b 0.25" +:+ String "010" EmptyString)).

(** A file system without directories: a leading [./] does not matter,
    and nothing can be written below a directory. *)
Definition toy_resolve (path : string) : string :=
  match path with
  | String "." (String "/" path') => path'
  | _ => path
  end.

Fixpoint has_char (c : ascii) (s : string) : bool :=
  match s with
  | EmptyString => false
  | String a s' => bool_decide (a = c) || has_char c s'
  end.

Definition toy_FileSystem : FileSystem := {|
  resolve := toy_resolve;
  write_refused fs path :=
    if has_char "/" (toy_resolve path) then Some FileNotFoundError else None
|}.

(** A relation file: one pair per line, cut at tabs. *)
Definition tab : string := String "009" EmptyString.
Definition relations_tsv : string :=
  "a" +:+ tab +:+ "b" +:+ String "010" ("b" +:+ tab +:+ "c" +:+ String "010" EmptyString).

Definition gensim_files : gmap string string :=
  <[ "rel.tsv" := relations_tsv ]> toy_files.

(** A trainer that fails where the library is known to: the relation
    file must be there and hold exactly two items per line, and training
    with more than one worker is not implemented.  Its model is the
    number of workers and the relation lines; its hidden state counts
    the calls. *)
Definition toy_Poincare : Poincare pynum nat (pynum * list string) := {|
  PoincareModel_init rel size alpha burn_in burn_in_alpha workers negative s :=
    match s.1 !! toy_resolve (file_path rel), delimiter rel with
    | None, _ => (Raised FileNotFoundError, s)
    | Some text, String c EmptyString =>
        let lines := filter (λ l, l ≠ EmptyString) (split_on "010"%char text) in
        if forallb (λ l, length (split_on c l) =? 2) lines
        then (Ok (workers, lines), (s.1, S s.2))
        else (Raised ValueError, s)
    | Some _, _ => (Raised ValueError, s)
    end;
  PoincareModel_train m epochs print_every batch_size s :=
    match m.1 with
    | PyInt n =>
        if (1 <? n)%Z then (Raised NotImplementedError, s)
        else (Ok (m.1, "trained" :: m.2), (s.1, S s.2))
    | PyFloat _ => (Ok (m.1, "trained" :: m.2), (s.1, S s.2))
    end;
  word2vec_format m := String.concat (String "010" EmptyString) m.2
|}.

(** A classifier that remembers how many samples it was fitted on and
    gives each sample a row of two numbers depending on that count. *)
Definition toy_Estimator : Estimator nat Z nat (list (list Z)) pynum := {|
  fit c X y max_epochs := c + length X;
  predict c X := (λ x, [x; Z.of_nat c]) <$> X
|}.

(** Position of the first largest entry of a row. *)
Definition argmax_row (r : list Z) : nat :=
  match r with
  | [] => 0
  | x :: r' =>
      (fold_left (λ '(best, at_, i) v,
                    if (best <? v)%Z then (v, i, S i) else (best, at_, S i))
                 r' (x, 0, 1)).1.2
  end.

(** A toolkit that splits without shuffling, and scores by counting the
    agreeing positions. *)
Definition toy_Toolkit : Toolkit nat Z nat (list (list Z)) nat := {|
  train_test_split X y test_size e :=
    let k := length X * 7 / 10 in
    ((take k X, drop k X, take k y, drop k y), S e);
  np_argmax p axis := argmax_row <$> p;
  classification_report y_true y_pred := "report";
  f1_score y_true y_pred average :=
    length (filter (λ '(t, p), t = p) (zip y_true y_pred))
|}.

Definition toy_world : eval_world nat nat Z nat (list (list Z)) pynum :=
  EvalWorld (λ _, 0) 0 [] [].

Definition toy_X : list Z := [3; 0; 2; 5; 1; 4; 7]%Z.
Definition toy_y : list nat := [0; 1; 0; 0; 1; 0; 0].

(** * Properties *)

(** ** [train_embeddings] *)

Section train_embeddings_facts.
Context {V E Model : Type} `{!Poincare V E Model, !FileSystem}.
Implicit Types w : gensim_world V E.

(** One run of [train_embeddings], in full.  Every step is taken only if
    the one before it returned; what a step raises is what the run
    raises. *)
Lemma train_embeddings_run input_path delimiter output_path
    size alpha burn_in burn_in_alpha workers negative
    epochs print_every batch_size w :
  let relations := Relations input_path delimiter in
  let c1 := call_PoincareRelations input_path delimiter in
  let c2 := call_PoincareModel relations
              size alpha burn_in burn_in_alpha workers negative in
  let c3 := call_train epochs print_every batch_size in
  let c4 := call_save_word2vec_format output_path in
  train_embeddings input_path delimiter output_path
    size alpha burn_in burn_in_alpha workers negative
    epochs print_every batch_size w
  = match PoincareModel_init relations
            size alpha burn_in burn_in_alpha workers negative
            (files w, gensim_state w) with
    | (Raised err, (fs1, e1)) =>
        (Raised err, GensimWorld fs1 e1 (gensim_calls w ++ [c1; c2]))
    | (Ok m, (fs1, e1)) =>
        match PoincareModel_train m epochs print_every batch_size (fs1, e1) with
        | (Raised err, (fs2, e2)) =>
            (Raised err, GensimWorld fs2 e2 (gensim_calls w ++ [c1; c2; c3]))
        | (Ok m', (fs2, e2)) =>
            match write_refused fs2 output_path with
            | Some err =>
                (Raised err, GensimWorld fs2 e2 (gensim_calls w ++ [c1; c2; c3; c4]))
            | None =>
                (Ok None_,
                 GensimWorld (<[resolve output_path := word2vec_format m']> fs2) e2
                   (gensim_calls w ++ [c1; c2; c3; c4]))
            end
        end
    end.
Proof.
  intros relations c1 c2 c3 c4. subst relations c1 c2 c3 c4.
  unfold train_embeddings, mbind, M_bind, mret, M_ret.
  unfold new_PoincareRelations, new_PoincareModel, model_train,
    save_word2vec_format; simpl.
  destruct (PoincareModel_init _ _ _ _ _ _ _ _) as [[m|err] [fs1 e1]]; simpl;
    [|by rewrite <- !app_assoc].
  destruct (PoincareModel_train _ _ _ _ _) as [[m'|err] [fs2 e2]]; simpl;
    [|by rewrite <- !app_assoc].
  destruct (write_refused fs2 output_path); by rewrite <- !app_assoc.
Qed.

(** C2, as far as it holds.  Whatever the paths, the delimiter and the
    nine named parameters are, [train_embeddings] builds the relations
    reader with [input_path] and [delimiter] and the trainer on that
    reader with [size], [alpha], [burn_in], [burn_in_alpha], [workers] and
    [negative] as given.  If building raises, the call raises the same
    and has made these two library calls only.  Otherwise it trains with
    [epochs], [print_every] and [batch_size] as given; if training
    raises, the call raises the same after three library calls.
    Otherwise it asks for the vectors of the trained model to be saved at
    [output_path]: it returns with the text of the trained model in that
    file, or raises what the save raises and the file is not written. *)
Theorem train_embeddings_forwards input_path delimiter output_path
    size alpha burn_in burn_in_alpha workers negative
    epochs print_every batch_size w :
  let relations := Relations input_path delimiter in
  let four :=
    [call_PoincareRelations input_path delimiter;
     call_PoincareModel relations
       size alpha burn_in burn_in_alpha workers negative;
     call_train epochs print_every batch_size;
     call_save_word2vec_format output_path] in
  let run := train_embeddings input_path delimiter output_path
               size alpha burn_in burn_in_alpha workers negative
               epochs print_every batch_size w in
  let built := PoincareModel_init relations
                 size alpha burn_in burn_in_alpha workers negative
                 (files w, gensim_state w) in
  (∀ err, built.1 = Raised err →
     run.1 = Raised err ∧ gensim_calls run.2 = gensim_calls w ++ take 2 four)
  ∧ (∀ m, built.1 = Ok m →
       let trained := PoincareModel_train m epochs print_every batch_size built.2 in
       (∀ err, trained.1 = Raised err →
          run.1 = Raised err ∧ gensim_calls run.2 = gensim_calls w ++ take 3 four)
       ∧ (∀ m', trained.1 = Ok m' →
            gensim_calls run.2 = gensim_calls w ++ four
            ∧ match write_refused trained.2.1 output_path with
              | Some err => run.1 = Raised err ∧ files run.2 = trained.2.1
              | None =>
                  run.1 = Ok None_
                  ∧ files run.2
                    = <[resolve output_path := word2vec_format m']> trained.2.1
              end)).
Proof.
  intros relations four run built. subst run built four relations.
  rewrite train_embeddings_run.
  destruct (PoincareModel_init _ _ _ _ _ _ _ _) as [[m|err] [fs1 e1]]; simpl.
  - split; [done|]. intros ? [= <-].
    destruct (PoincareModel_train _ _ _ _ _) as [[m'|err] [fs2 e2]]; simpl.
    + split; [done|]. intros ? [= <-].
      by destruct (write_refused fs2 output_path).
    + split; [|done]. by intros ? [= <-].
  - split; [|done]. by intros ? [= <-].
Qed.


End train_embeddings_facts.

#[local] Existing Instances toy_Poincare toy_FileSystem.

Lemma toy_Poincare_keeps_files : keeps_files toy_Poincare.
Proof.
  split.
  - intros rel size alpha burn_in burn_in_alpha workers negative [fs e]. simpl.
    destruct (fs !! toy_resolve (file_path rel)); [|done].
    destruct (delimiter rel) as [|c [|? ?]]; try done.
    by destruct (forallb _ _).
  - intros [workers lines] epochs print_every batch_size [fs e]. simpl.
    destruct workers as [n|q]; [|done]. by destruct (1 <? n)%Z.
Qed.

(** The defaults on the stand-in trainer: four calls, and the file. *)
Example train_embeddings_defaults_calls :
  let run := train_embeddings_defaults "rel.tsv" tab "out.txt"
               (GensimWorld gensim_files 0 []) in
  run.1 = Ok None_
  ∧ gensim_calls run.2 =
      [call_PoincareRelations "rel.tsv" tab;
       call_PoincareModel (Relations "rel.tsv" tab)
         (PyInt 2) (PyFloat 0.1) (PyInt 10) (PyFloat 0.01) (PyInt 1) (PyInt 10);
       call_train (PyInt 100) (PyInt 500) (PyInt 10);
       call_save_word2vec_format "out.txt"]
  ∧ files run.2 !! "emb3.txt" = Some vectors_3d
  ∧ is_Some (files run.2 !! "out.txt").
Proof. vm_compute. repeat split; eauto. Qed.

(** C2 as stated does not hold when the relation file is not there:
    building the trainer raises, the call has made two library calls, and
    no file is written. *)
Lemma train_embeddings_missing_relations :
  let run := train_embeddings_defaults "nowhere.tsv" tab "out.txt"
               (GensimWorld gensim_files 0 []) in
  run.1 = Raised FileNotFoundError
  ∧ gensim_calls run.2 =
      [call_PoincareRelations "nowhere.tsv" tab;
       call_PoincareModel (Relations "nowhere.tsv" tab)
         (PyInt 2) (PyFloat 0.1) (PyInt 10) (PyFloat 0.01) (PyInt 1) (PyInt 10)]
  ∧ files run.2 !! "out.txt" = None.
Proof. vm_compute. repeat split. Qed.


(** Other ways for the call to stop short: a line of the relation file
    with three items, and an output path below a directory that is not
    there. *)
Example train_embeddings_malformed_relations :
  (train_embeddings_defaults "emb2.txt" " " "out.txt"
     (GensimWorld gensim_files 0 [])).1 = Raised ValueError.
Proof. vm_compute. reflexivity. Qed.

Example train_embeddings_unwritable :
  let run := train_embeddings_defaults "rel.tsv" tab "missing/out.txt"
               (GensimWorld gensim_files 0 []) in
  run.1 = Raised FileNotFoundError
  ∧ length (gensim_calls run.2) = 4
  ∧ files run.2 = gensim_files.
Proof. vm_compute. repeat split. Qed.


(** ** [load_embeddings] *)

Lemma insert_columns_length names cols cols' :
  insert_columns names cols = Ok cols' →
  length cols' = length names + length cols.
Proof.
  revert cols'. induction names as [|name names IH]; intros cols' Hins.
  - by injection Hins as <-.
  - simpl in Hins. unfold mbind, outcome_bind in Hins.
    destruct (insert_columns names cols) as [cs|]; [|done].
    case_bool_decide; [done|]. injection Hins as <-.
    simpl. by rewrite (IH cs).
Qed.

Lemma index_column_names_length df :
  length (index_column_names df) = nlevels (index df).
Proof.
  unfold index_column_names.
  destruct (index df) as [|[|name [|name' names]] labels]; simpl; try done.
  by rewrite length_imap.
Qed.

(** After [reset_index] there is one column per level of the old row
    labels and one per old column. *)
Lemma reset_index_columns df t :
  reset_index df = Ok t →
  length (columns t) = nlevels (index df) + length (columns df).
Proof.
  unfold reset_index, mbind, outcome_bind. intros Hreset.
  destruct (insert_columns _ _) as [cols|] eqn:Hins; [|done].
  injection Hreset as <-. simpl.
  by rewrite (insert_columns_length _ _ _ Hins), index_column_names_length.
Qed.

Lemma set_columns_ok df names :
  length names = length (columns df) →
  set_columns df names = Ok (Frame (index df) names (rows df)).
Proof. intros Hlen. unfold set_columns. by rewrite Hlen, Nat.eqb_refl. Qed.

Lemma set_columns_mismatch df names :
  length names ≠ length (columns df) →
  set_columns df names = Raised ValueError.
Proof.
  intros Hlen. unfold set_columns.
  by destruct (Nat.eqb_spec (length names) (length (columns df))).
Qed.

Section load_embeddings_facts.
Context `{reader : !TableReader}.
Implicit Types fs : gmap string string.

(** [load_embeddings] in terms of the table it renames. *)
Lemma load_embeddings_unfold fs file_path delim :
  load_embeddings fs file_path delim =
    match table_after_reset_index fs file_path with
    | Ok t => set_columns t ["node"; "x"; "y"]
    | Raised e => Raised e
    end.
Proof.
  unfold load_embeddings, table_after_reset_index, mbind, outcome_bind, mret,
    outcome_ret.
  destruct (pd_read_table fs file_path " ") as [df|]; [|done].
  destruct (reset_index df) as [t|]; [|done].
  by destruct (set_columns t _).
Qed.

(** C7. [delim] does not reach the result: two calls on the same file
    with different [delim] agree.  The text is always cut at single
    spaces: replacing the reader by any other one that does the same as
    this one on the single space changes nothing either. *)
Theorem load_embeddings_delim_unused fs file_path d1 d2 :
  load_embeddings fs file_path d1 = load_embeddings fs file_path d2
  ∧ ∀ reader' : TableReader,
      (∀ text, @read_table reader' text " " = @read_table reader text " ") →
      @load_embeddings reader' fs file_path d1 = load_embeddings fs file_path d2.
Proof.
  split; [done|]. intros reader' Hsame.
  unfold load_embeddings, pd_read_table.
  destruct (fs !! file_path) as [text|]; [|done].
  by rewrite Hsame.
Qed.

(** C8, as far as it holds.  A table that [load_embeddings] returns has
    exactly the columns
    [node], [x], [y].  When the table read and re-indexed has a number of
    columns other than three, the call raises; when it has three, the
    call returns that table under the new column names. *)
Theorem load_embeddings_columns fs file_path delim :
  (∀ emb, load_embeddings fs file_path delim = Ok emb →
          columns emb = ["node"; "x"; "y"])
  ∧ (∀ t, table_after_reset_index fs file_path = Ok t →
          length (columns t) ≠ 3 →
          load_embeddings fs file_path delim = Raised ValueError)
  ∧ (∀ t, table_after_reset_index fs file_path = Ok t →
          length (columns t) = 3 →
          load_embeddings fs file_path delim
          = Ok (Frame (index t) ["node"; "x"; "y"] (rows t))).
Proof.
  rewrite load_embeddings_unfold.
  destruct (table_after_reset_index fs file_path) as [t|e].
  - split; [|split].
    + intros emb. unfold set_columns.
      destruct (_ =? _); [|done]. by intros [= <-].
    + intros t' [= <-] Hlen. apply set_columns_mismatch. simpl. congruence.
    + intros t' [= <-] Hlen. apply set_columns_ok. simpl. congruence.
  - by repeat split.
Qed.

(** What the parser must have produced for the call to succeed: the
    levels of the row labels and the columns add up to three. *)
Lemma load_embeddings_shape fs file_path delim df emb :
  pd_read_table fs file_path " " = Ok df →
  load_embeddings fs file_path delim = Ok emb →
  nlevels (index df) + length (columns df) = 3.
Proof.
  intros Hread. rewrite load_embeddings_unfold.
  unfold table_after_reset_index. rewrite Hread. simpl.
  unfold mbind, outcome_bind.
  destruct (reset_index df) as [t|] eqn:Hreset; [|done].
  destruct (decide (length (columns t) = 3)) as [Hlen|Hlen].
  - intros _. by rewrite <- (reset_index_columns _ _ Hreset).
  - by rewrite set_columns_mismatch.
Qed.

End load_embeddings_facts.

(** A file of two-dimensional vectors loads; the header line [2 2] gives
    two columns and the node names become the row labels, so that the
    re-indexed table has three columns. *)
Example load_embeddings_2d :
  @load_embeddings plain_reader toy_files "emb2.txt" "," =
    Ok (Frame RangeIndex ["node"; "x"; "y"]
          [[SStr "a"; SStr "0.5"; SStr "0.25"];
           [SStr "b"; SStr "0.125"; SStr "0.75"]]).
Proof. vm_compute. reflexivity. Qed.

Example load_embeddings_default_2d :
  columns <$> @load_embeddings_default plain_reader toy_files "emb2.txt"
  = Ok ["node"; "x"; "y"].
Proof. vm_compute. reflexivity. Qed.

(** A file of three-dimensional vectors does not. *)
Example load_embeddings_3d :
  (columns <$> @table_after_reset_index plain_reader toy_files "emb3.txt")
    = Ok ["level_0"; "level_1"; "2"; "3"]
  ∧ @load_embeddings plain_reader toy_files "emb3.txt" " " = Raised ValueError.
Proof. vm_compute. split; reflexivity. Qed.

(** C8 as stated does not hold: a file need not hold two-dimensional
    vectors to load.  In a file of one-dimensional vectors the rows have
    as many fields as the first line, so the rows keep the default labels
    and there are two columns; re-indexed, the table has three.  The call
    returns it, with the row numbers as [node]. *)
Lemma load_embeddings_1d :
  @table_after_reset_index plain_reader {[ "emb1.txt" := vectors_1d ]} "emb1.txt"
  = Ok (Frame RangeIndex ["index"; "2"; "1"]
          [[SInt 0; SStr "a"; SStr "0.5"]; [SInt 1; SStr "b"; SStr "0.25"]])
  ∧ @load_embeddings plain_reader {[ "emb1.txt" := vectors_1d ]} "emb1.txt" " "
    = Ok (Frame RangeIndex ["node"; "x"; "y"]
            [[SInt 0; SStr "a"; SStr "0.5"]; [SInt 1; SStr "b"; SStr "0.25"]]).
Proof. vm_compute. split; reflexivity. Qed.

Example load_embeddings_missing_file :
  @load_embeddings plain_reader toy_files "nowhere.txt" " " = Raised FileNotFoundError.
Proof. vm_compute. reflexivity. Qed.

(** The two stand-in readers differ on the comma and agree on the
    space; the loader cannot tell them apart. *)
Example load_embeddings_two_readers :
  @read_table plain_reader "a,b" "," ≠ @read_table space_only_reader "a,b" ","
  ∧ @load_embeddings space_only_reader toy_files "emb2.txt" ","
    = @load_embeddings plain_reader toy_files "emb2.txt" ";".
Proof.
  split; [by vm_compute|]. vm_compute. reflexivity.
Qed.

(** ** The K-fold splitter *)

Lemma fold_sizes_length n k : length (fold_sizes n k) = k.
Proof. unfold fold_sizes. by rewrite length_fmap, length_seq. Qed.

Lemma sum_list_bonus a r k :
  sum_list ((λ i, a + (if i <? r then 1 else 0)) <$> seq 0 k) = k * a + r `min` k.
Proof.
  induction k as [|k IH]; [simpl; lia|].
  rewrite seq_S, fmap_app, sum_list_with_app, IH. simpl.
  destruct (Nat.ltb_spec k r); lia.
Qed.

(** The fold sizes add up to the number of samples. *)
Lemma fold_sizes_sum n k : 0 < k → sum_list (fold_sizes n k) = n.
Proof.
  intros Hk. unfold fold_sizes. rewrite sum_list_bonus.
  pose proof (Nat.mod_upper_bound n k ltac:(lia)).
  pose proof (Nat.div_mod_eq n k). lia.
Qed.

Lemma test_blocks_length current sizes :
  length (test_blocks current sizes) = length sizes.
Proof.
  revert current. induction sizes as [|s sizes IH]; intros current; simpl; [done|].
  by rewrite IH.
Qed.

(** The test blocks, laid end to end, are the positions from [current]
    on, each once and in order. *)
Lemma test_blocks_concat current sizes :
  concat (test_blocks current sizes) = seq current (sum_list sizes).
Proof.
  revert current. induction sizes as [|s sizes IH]; intros current; simpl; [done|].
  by rewrite IH, seq_app.
Qed.

Lemma elem_of_concat {A} (x : A) (ls : list (list A)) :
  x ∈ concat ls ↔ ∃ j l, ls !! j = Some l ∧ x ∈ l.
Proof.
  induction ls as [|l ls IH]; simpl.
  - split; [by intros ?%elem_of_nil | by intros (j & l & ? & _)].
  - rewrite elem_of_app, IH. split.
    + intros [Hx | (j & l' & Hj & Hx)].
      * by exists 0, l.
      * by exists (S j), l'.
    + intros ([|j] & l' & Hj & Hx); simpl in Hj.
      * left. congruence.
      * right. eauto.
Qed.

(** In a list of lists without repetition overall, an element sits in
    one of the lists only. *)
Lemma NoDup_concat_unique {A} (x : A) (ls : list (list A)) j1 j2 l1 l2 :
  NoDup (concat ls) →
  ls !! j1 = Some l1 → ls !! j2 = Some l2 → x ∈ l1 → x ∈ l2 → j1 = j2.
Proof.
  revert j1 j2. induction ls as [|l ls IH]; intros j1 j2; [done|].
  simpl. rewrite NoDup_app. intros (_ & Hdisj & Hrest) H1 H2 Hx1 Hx2.
  destruct j1 as [|j1], j2 as [|j2]; simpl in *; simplify_eq; try done.
  - exfalso. apply (Hdisj x Hx1), elem_of_concat. eauto.
  - exfalso. apply (Hdisj x Hx2), elem_of_concat. eauto.
  - f_equal. eauto.
Qed.

Lemma elem_of_train_of n test i : i ∈ train_of n test ↔ i < n ∧ i ∉ test.
Proof.
  unfold train_of. rewrite list_elem_of_filter, elem_of_seq.
  split; intros [? ?]; (split; [done || lia | done || lia]).
Qed.

Lemma snd_with_train n (blocks : list (list nat)) :
  ((λ test, (train_of n test, test)) <$> blocks).*2 = blocks.
Proof. induction blocks as [|b blocks IH]; simpl; [done | by f_equal]. Qed.

(** What [cv_folds] yields when it yields. *)
Lemma cv_folds_ok {A} (X : list A) cv folds :
  cv_folds X cv = Ok folds →
  (2 ≤ cv ≤ Z.of_nat (length X))%Z
  ∧ folds = (λ test, (train_of (length X) test, test))
              <$> test_blocks 0 (fold_sizes (length X) (Z.to_nat cv)).
Proof.
  unfold cv_folds, new_KFold, KFold_split, mbind, outcome_bind.
  destruct (Z.leb_spec cv 1); [done|]. simpl.
  destruct (Nat.ltb_spec (length X) (Z.to_nat cv)); [done|].
  intros [= <-]. split; [lia | done].
Qed.

(** A call with at least two folds and no more folds than samples gets
    its folds. *)
Lemma cv_folds_valid {A} (X : list A) cv :
  (2 ≤ cv ≤ Z.of_nat (length X))%Z →
  cv_folds X cv = Ok ((λ test, (train_of (length X) test, test))
                        <$> test_blocks 0 (fold_sizes (length X) (Z.to_nat cv))).
Proof.
  intros Hcv. unfold cv_folds, new_KFold, KFold_split, mbind, outcome_bind.
  destruct (Z.leb_spec cv 1); [lia|]. simpl.
  destruct (Nat.ltb_spec (length X) (Z.to_nat cv)); [lia | done].
Qed.

Lemma cv_folds_tests {A} (X : list A) cv folds :
  cv_folds X cv = Ok folds →
  length folds = Z.to_nat cv ∧ concat folds.*2 = seq 0 (length X).
Proof.
  intros [Hcv ->]%cv_folds_ok.
  rewrite length_fmap, test_blocks_length, fold_sizes_length.
  split; [done|].
  rewrite snd_with_train, test_blocks_concat, fold_sizes_sum; [done | lia].
Qed.

Lemma cv_folds_lookup {A} (X : list A) cv folds j train test :
  cv_folds X cv = Ok folds →
  folds !! j = Some (train, test) →
  train = train_of (length X) test ∧ folds.*2 !! j = Some test.
Proof.
  intros [_ ->]%cv_folds_ok Hj. split.
  - rewrite list_lookup_fmap in Hj.
    destruct (test_blocks _ _ !! j) as [b|]; simpl in Hj; by simplify_eq.
  - by rewrite list_lookup_fmap, Hj.
Qed.

Lemma lookup_snd_inv {B C} (l : list (B * C)) j c :
  l.*2 !! j = Some c → ∃ b, l !! j = Some (b, c).
Proof.
  rewrite list_lookup_fmap. destruct (l !! j) as [[b c']|]; simpl; [|done].
  intros [= <-]. by exists b.
Qed.

(** Every position below the number of samples is in the test set of a
    fold, and test sets of different folds share nothing. *)
Lemma cv_folds_test_exists {A} (X : list A) cv folds i :
  cv_folds X cv = Ok folds → i < length X →
  ∃ j train test, folds !! j = Some (train, test) ∧ i ∈ test.
Proof.
  intros Hfolds Hi. destruct (cv_folds_tests _ _ _ Hfolds) as [_ Hcat].
  assert (i ∈ concat folds.*2) as (j & test & Hj & Hin)%elem_of_concat.
  { rewrite Hcat, elem_of_seq. lia. }
  destruct (lookup_snd_inv _ _ _ Hj) as [train Hj']. eauto.
Qed.

Lemma cv_folds_test_unique {A} (X : list A) cv folds i j1 j2 tr1 te1 tr2 te2 :
  cv_folds X cv = Ok folds →
  folds !! j1 = Some (tr1, te1) → folds !! j2 = Some (tr2, te2) →
  i ∈ te1 → i ∈ te2 → j1 = j2.
Proof.
  intros Hfolds H1 H2 Hi1 Hi2.
  destruct (cv_folds_tests _ _ _ Hfolds) as [_ Hcat].
  destruct (cv_folds_lookup _ _ _ _ _ _ Hfolds H1) as [_ H1'].
  destruct (cv_folds_lookup _ _ _ _ _ _ Hfolds H2) as [_ H2'].
  eapply (NoDup_concat_unique i folds.*2); eauto.
  rewrite Hcat. apply NoDup_seq.
Qed.

Lemma cv_folds_test_bound {A} (X : list A) cv folds i j train test :
  cv_folds X cv = Ok folds →
  folds !! j = Some (train, test) → i ∈ test → i < length X.
Proof.
  intros Hfolds Hj Hi.
  destruct (cv_folds_tests _ _ _ Hfolds) as [_ Hcat].
  destruct (cv_folds_lookup _ _ _ _ _ _ Hfolds Hj) as [_ Hj'].
  assert (i ∈ concat folds.*2) as Hin by (apply elem_of_concat; eauto).
  rewrite Hcat, elem_of_seq in Hin. lia.
Qed.

(** Folds that [cv_folds] yields partition the positions. *)
Lemma cv_folds_ok_partition {A} (X : list A) (cv : Z)
    (folds : list (list nat * list nat)) :
  cv_folds X cv = Ok folds →
  Z.of_nat (length folds) = cv
  ∧ (∀ i, i < length X →
       exists! j, ∃ train test, folds !! j = Some (train, test) ∧ i ∈ test)
  ∧ (∀ j train test, folds !! j = Some (train, test) →
       (∀ i, i ∈ train ↔
             ∃ j' train' test',
               j' ≠ j ∧ folds !! j' = Some (train', test') ∧ i ∈ test')
       ∧ (∀ i, i ∈ train → i ∉ test)
       ∧ (∀ i, i ∈ train ∨ i ∈ test ↔ i < length X)).
Proof.
  intros Hfolds. split; [|split].
  - destruct (cv_folds_tests _ _ _ Hfolds) as [-> _].
    apply cv_folds_ok in Hfolds as [? _]. lia.
  - intros i Hi.
    destruct (cv_folds_test_exists _ _ _ i Hfolds Hi) as (j & train & test & Hj & Hin).
    exists j. split; [eauto|].
    intros j' (train' & test' & Hj' & Hin').
    eapply cv_folds_test_unique; eauto.
  - intros j train test Hj.
    destruct (cv_folds_lookup _ _ _ _ _ _ Hfolds Hj) as [-> _].
    split; [|split]; intros i; rewrite ?elem_of_train_of.
    + split.
      * intros [Hi Hnot].
        destruct (cv_folds_test_exists _ _ _ i Hfolds Hi)
          as (j' & train' & test' & Hj' & Hin).
        exists j', train', test'. split; [|done].
        intros ->. rewrite Hj in Hj'. by simplify_eq.
      * intros (j' & train' & test' & Hne & Hj' & Hin). split.
        -- eapply cv_folds_test_bound; eauto.
        -- intros Hin'. apply Hne. eapply cv_folds_test_unique; eauto.
    + by intros [_ ?].
    + split.
      * intros [[? _] | Hin]; [done|]. eapply cv_folds_test_bound; eauto.
      * intros Hi. destruct (decide (i ∈ test)); [by right | by left].
Qed.

(** C3. In a call with at least two folds and no more folds than
    samples, the folds that [evaluate_model] iterates over partition the
    positions of [X]: there are [cv] of them, every position is in the
    test set of exactly one fold, and the train set of a fold consists of
    exactly the positions in the test sets of the other folds; train set
    and test set of a fold share nothing and together are all positions. *)
Theorem cv_folds_partition {A} (X : list A) (cv : Z) :
  (2 ≤ cv ≤ Z.of_nat (length X))%Z →
  ∃ folds,
    cv_folds X cv = Ok folds
    ∧ Z.of_nat (length folds) = cv
    ∧ (∀ i, i < length X →
         exists! j, ∃ train test, folds !! j = Some (train, test) ∧ i ∈ test)
    ∧ (∀ j train test, folds !! j = Some (train, test) →
         (∀ i, i ∈ train ↔
               ∃ j' train' test',
                 j' ≠ j ∧ folds !! j' = Some (train', test') ∧ i ∈ test')
         ∧ (∀ i, i ∈ train → i ∉ test)
         ∧ (∀ i, i ∈ train ∨ i ∈ test ↔ i < length X)).
Proof.
  intros Hcv. pose proof (cv_folds_valid X cv Hcv) as Hfolds.
  eexists. split; [exact Hfolds|].
  exact (cv_folds_ok_partition X cv _ Hfolds).
Qed.

(** Seven samples in three folds. *)
Example cv_folds_seven_in_three :
  cv_folds toy_X 3 =
    Ok [([3; 4; 5; 6], [0; 1; 2]); ([0; 1; 2; 5; 6], [3; 4]); ([0; 1; 2; 3; 4], [5; 6])].
Proof. reflexivity. Qed.

(** The partition of seven samples into three folds. *)
Lemma cv_folds_partition_witness :
  ∃ folds,
    cv_folds toy_X 3 = Ok folds
    ∧ Z.of_nat (length folds) = 3%Z
    ∧ (∀ i, i < length toy_X →
         exists! j, ∃ train test, folds !! j = Some (train, test) ∧ i ∈ test)
    ∧ (∀ j train test, folds !! j = Some (train, test) →
         (∀ i, i ∈ train ↔
               ∃ j' train' test',
                 j' ≠ j ∧ folds !! j' = Some (train', test') ∧ i ∈ test')
         ∧ (∀ i, i ∈ train → i ∉ test)
         ∧ (∀ i, i ∈ train ∨ i ∈ test ↔ i < length toy_X)).
Proof.
  apply (cv_folds_partition toy_X 3). simpl. lia.
Defined.

(** The folds of a call the splitter refuses: there are none. *)
Example cv_folds_refused :
  cv_folds toy_X 1 = Raised ValueError ∧ cv_folds toy_X 8 = Raised ValueError.
Proof. split; reflexivity. Qed.

(** ** [evaluate_model] *)

Lemma np_index_ok {A} (a : list A) (idx : list nat) :
  (∀ i, i ∈ idx → i < length a) → np_index a idx = Ok (select a idx).
Proof.
  intros Hidx. unfold np_index.
  destruct (forallb _ idx) eqn:Hall; [done|].
  apply not_true_iff_false in Hall. destruct Hall.
  apply forallb_forall. intros i Hi%list_elem_of_In.
  apply Nat.ltb_lt. auto.
Qed.

Lemma np_index_cases {A} (a : list A) (idx : list nat) :
  np_index a idx = Ok (select a idx) ∨ np_index a idx = Raised IndexError.
Proof. unfold np_index. destruct (forallb _ idx); auto. Qed.

Lemma bind_run {W A B} (m : M W A) (f : A → M W B) (w : W) :
  (m ≫= f) w = match m w with
               | (Ok a, w') => f a w'
               | (Raised e, w') => (Raised e, w')
               end.
Proof. done. Qed.

(** At the test size of the source, 0.3, the split is refused exactly
    when the arrays differ in length or there are fewer than two
    samples. *)
Lemma split_refused_default {A B} (X : list A) (y : list B) :
  split_refused X y 0.3 = negb (length X =? length y) || (length X <? 2).
Proof.
  unfold split_refused.
  change (Qle_bool 0.3 0) with false. change (Qle_bool 1 0.3) with false.
  rewrite !orb_false_r. f_equal.
  unfold Qceiling, Qfloor, Qopp, Qmult, inject_Z. cbn [Qnum Qden].
  change (Z.pos (10 * 1)) with 10%Z.
  destruct (Z.leb_spec (Z.of_nat (length X) - - (- (3 * Z.of_nat (length X)) / 10)) 0);
    destruct (Nat.ltb_spec (length X) 2); try done;
    Z.to_euclidean_division_equations; lia.
Qed.

Lemma split_accepted {A B} (X : list A) (y : list B) :
  length y = length X → 2 ≤ length X → split_refused X y 0.3 = false.
Proof.
  intros Hlen Hn. rewrite split_refused_default, Hlen, Nat.eqb_refl. simpl.
  by destruct (Nat.ltb_spec (length X) 2); [lia|].
Qed.

Lemma split_not_accepted {A B} (X : list A) (y : list B) :
  length y ≠ length X ∨ length X < 2 → split_refused X y 0.3 = true.
Proof.
  intros Hbad. rewrite split_refused_default.
  destruct (Nat.eqb_spec (length X) (length y)); [|done]. simpl.
  destruct (Nat.ltb_spec (length X) 2); [done | lia].
Qed.

Section evaluate_model_facts.
Context {Clf E feat label pred score V : Type}.
Context `{!Estimator Clf feat label pred V, !Toolkit E feat label pred score}.
Implicit Types w : eval_world Clf E feat label pred V.
Implicit Types (X : list feat) (y : list label) (folds : list (list nat * list nat)).

Lemma folds_within_cons {A} (a : list A) fold folds :
  folds_within a (fold :: folds) →
  (∀ i, i ∈ fold.1 → i < length a) ∧ (∀ i, i ∈ fold.2 → i < length a)
  ∧ folds_within a folds.
Proof.
  intros Hin. repeat split.
  - intros i Hi. apply (Hin fold); [left | by left].
  - intros i Hi. apply (Hin fold); [left | by right].
  - intros fold' Hfold'. apply Hin. by right.
Qed.

(** The loop over folds whose positions are all there: its scores, and
    the world it leaves. *)
Lemma kfold_loop_run model X y max_epochs folds :
  folds_within X folds → folds_within y folds →
  ∀ cv_scores w, ∃ w',
    kfold_loop model X y max_epochs folds cv_scores w
    = (Ok (cv_scores ++ fold_scores X y max_epochs (objects w model) folds), w')
    ∧ objects w' model = fit_folds X y max_epochs folds (objects w model)
    ∧ (∀ a, a ≠ model → objects w' a = objects w a)
    ∧ random_state w' = random_state w
    ∧ stdout w' = stdout w
    ∧ calls w' = calls w ++ folds_calls model X y max_epochs (objects w model) folds.
Proof.
  induction folds as [|[train test] folds IH]; intros HX Hy cv_scores w.
  - exists w. simpl. by rewrite !app_nil_r.
  - apply folds_within_cons in HX as (HXtr & HXte & HX).
    apply folds_within_cons in Hy as (Hytr & Hyte & Hy).
    simpl in HXtr, HXte, Hytr, Hyte.
    cbn [kfold_loop]. rewrite !bind_run. unfold lift at 1.
    rewrite (np_index_ok X train HXtr).
    rewrite !bind_run. unfold lift at 1. rewrite (np_index_ok y train Hytr).
    rewrite !bind_run. unfold model_fit at 1.
    rewrite !bind_run. unfold lift at 1. rewrite (np_index_ok X test HXte).
    rewrite !bind_run. unfold model_predict at 1.
    rewrite !bind_run. unfold logged at 1.
    rewrite !bind_run. unfold lift at 1. rewrite (np_index_ok y test Hyte).
    rewrite !bind_run. unfold logged at 1. cbn [objects random_state stdout calls].
    rewrite fn_lookup_insert.
    match goal with
    | |- context [kfold_loop _ _ _ _ folds ?acc ?w1] =>
        destruct (IH HX Hy acc w1) as (w' & Hrun & Hobj & Hframe & Hrand & Hout & Hcalls)
    end.
    cbn [objects random_state stdout calls] in *.
    rewrite fn_lookup_insert in *.
    exists w'. split; [|split; [|split; [|split; [|split]]]].
    + rewrite Hrun. by rewrite <- app_assoc.
    + done.
    + intros a Ha. rewrite Hframe by done. by apply fn_lookup_insert_ne.
    + done.
    + done.
    + rewrite Hcalls. cbn [folds_calls]. unfold fit_fold. simpl.
      by rewrite <- !app_assoc.
Qed.

(** What [evaluate_model] does once the report is out of the way. *)
Abbreviation kfold_phase model X y max_epochs cv :=
  (kf ← logged (call_KFold cv) (new_KFold cv);
   folds ← logged (call_split (length X)) (KFold_split kf (length X));
   kfold_loop model X y max_epochs folds []).

(** A first phase whose split the toolkit accepts does not raise; it
    leaves a world [w1] from which the second phase runs. *)
Lemma evaluate_model_phases model X y max_epochs cv report w :
  (report = true → split_refused X y 0.3 = false) →
  ∃ w1,
    evaluate_model model X y max_epochs cv report w
    = kfold_phase model X y max_epochs cv w1
    ∧ objects w1 model
      = model_after_report X y max_epochs report (objects w model) (random_state w)
    ∧ (∀ a, a ≠ model → objects w1 a = objects w a)
    ∧ random_state w1 = random_state_after_report X y report (random_state w)
    ∧ stdout w1
      = stdout w ++ report_output X y max_epochs report (objects w model) (random_state w)
    ∧ calls w1
      = calls w ++ report_calls model X y max_epochs report (objects w model)
                     (random_state w).
Proof.
  intros Haccepted. unfold evaluate_model. rewrite bind_run. destruct report.
  - unfold model_after_report, random_state_after_report, report_output,
      report_calls.
    rewrite !bind_run. unfold do_train_test_split at 1.
    rewrite (Haccepted eq_refl).
    destruct (train_test_split X y 0.3 (random_state w))
      as [[[[X_train X_test] y_train] y_test] e'].
    rewrite !bind_run. unfold model_fit at 1.
    rewrite !bind_run. unfold model_predict at 1.
    rewrite !bind_run. unfold logged at 1.
    rewrite !bind_run. unfold logged at 1.
    unfold print at 1. cbn [objects random_state stdout calls fst snd].
    rewrite fn_lookup_insert.
    eexists. split; [reflexivity|].
    cbn [objects random_state stdout calls].
    rewrite fn_lookup_insert, <- !app_assoc.
    repeat split. intros a Ha. by apply fn_lookup_insert_ne.
  - exists w. simpl. by rewrite !app_nil_r.
Qed.

Lemma cv_folds_within {A B} (a : list A) (b : list B) cv folds :
  cv_folds a cv = Ok folds → length a ≤ length b → folds_within b folds.
Proof.
  intros Hfolds Hlen [train test] Hfold i Hi. simpl in Hi.
  apply list_elem_of_lookup in Hfold as [j Hj].
  enough (i < length a) by lia.
  destruct Hi as [Hi | Hi].
  - destruct (cv_folds_lookup _ _ _ _ _ _ Hfolds Hj) as [-> _].
    by apply elem_of_train_of in Hi as [? _].
  - eapply cv_folds_test_bound; eauto.
Qed.

(** The second phase of a call that gets its folds and has a label for
    every sample. *)
Lemma kfold_phase_run model X y max_epochs cv folds w1 :
  cv_folds X cv = Ok folds → length X ≤ length y →
  ∃ w',
    kfold_phase model X y max_epochs cv w1
    = (Ok (fold_scores X y max_epochs (objects w1 model) folds), w')
    ∧ objects w' model = fit_folds X y max_epochs folds (objects w1 model)
    ∧ (∀ a, a ≠ model → objects w' a = objects w1 a)
    ∧ random_state w' = random_state w1
    ∧ stdout w' = stdout w1
    ∧ calls w'
      = calls w1 ++ [call_KFold cv; call_split (length X)]
          ++ folds_calls model X y max_epochs (objects w1 model) folds.
Proof.
  intros Hfolds Hlen.
  pose proof (cv_folds_within X X cv folds Hfolds (le_n _)) as HX.
  pose proof (cv_folds_within X y cv folds Hfolds Hlen) as Hy.
  unfold cv_folds in Hfolds. rewrite bind_run.
  unfold logged at 1.
  destruct (new_KFold cv) as [kf|]; [|done]. simpl in Hfolds.
  rewrite bind_run. unfold logged at 1. cbn [objects random_state stdout calls].
  rewrite Hfolds.
  match goal with
  | |- context [kfold_loop _ _ _ _ folds [] ?w2] =>
      destruct (kfold_loop_run model X y max_epochs folds HX Hy [] w2)
        as (w' & Hrun & Hobj & Hframe & Hrand & Hout & Hcalls)
  end.
  cbn [objects random_state stdout calls] in *.
  exists w'. rewrite Hrun, Hcalls, <- !app_assoc. by repeat split.
Qed.

(** Whether it returns or raises, the loop logs calls of the folds
    only, and prints nothing. *)
Lemma kfold_loop_calls model X y max_epochs folds :
  ∀ cv_scores w, ∃ new,
    calls (kfold_loop model X y max_epochs folds cv_scores w).2 = calls w ++ new
    ∧ Forall fold_phase_call new.
Proof.
  induction folds as [|[train test] folds IH]; intros cv_scores w.
  - exists []. simpl. by rewrite app_nil_r.
  - cbn [kfold_loop]. rewrite bind_run. unfold lift at 1.
    destruct (np_index_cases X train) as [-> | ->];
      [|exists []; simpl; by rewrite app_nil_r].
    rewrite bind_run. unfold lift at 1.
    destruct (np_index_cases y train) as [-> | ->];
      [|exists []; simpl; by rewrite app_nil_r].
    rewrite bind_run. unfold model_fit at 1.
    rewrite bind_run. unfold lift at 1.
    destruct (np_index_cases X test) as [-> | ->].
    2:{ eexists [_]. simpl. split; [done|]. by repeat constructor. }
    rewrite bind_run. unfold model_predict at 1.
    rewrite bind_run. unfold logged at 1.
    rewrite bind_run. unfold lift at 1.
    destruct (np_index_cases y test) as [-> | ->].
    2:{ eexists [_; _; _]. simpl. rewrite <- !app_assoc. split; [done|].
        by repeat constructor. }
    rewrite bind_run. unfold logged at 1.
    match goal with
    | |- context [kfold_loop _ _ _ _ folds ?acc ?w1] =>
        destruct (IH acc w1) as (new & -> & Hnew)
    end.
    cbn [calls]. eexists ([_; _; _; _] ++ new).
    rewrite <- !app_assoc. split; [done|].
    apply Forall_app. split; [by repeat constructor | done].
Qed.

Lemma kfold_phase_calls model X y max_epochs cv w1 :
  ∃ new,
    calls (kfold_phase model X y max_epochs cv w1).2
    = calls w1 ++ call_KFold cv :: new
    ∧ Forall fold_phase_call new.
Proof.
  rewrite bind_run. unfold logged at 1.
  destruct (new_KFold cv) as [kf|]; [|by exists []].
  rewrite bind_run. unfold logged at 1.
  destruct (KFold_split kf (length X)) as [folds|].
  2:{ eexists [_]. simpl. rewrite <- app_assoc. split; [done|].
      by repeat constructor. }
  match goal with
  | |- context [kfold_loop _ _ _ _ folds [] ?w2] =>
      destruct (kfold_loop_calls model X y max_epochs folds [] w2)
        as (new & -> & Hnew)
  end.
  cbn [calls]. exists (call_split (length X) :: new).
  rewrite <- !app_assoc. split; [done|].
  constructor; [by split | done].
Qed.

(** A first phase whose split the toolkit refuses: the call raises
    there and then. *)
Lemma evaluate_model_split_refused model X y max_epochs cv w :
  split_refused X y 0.3 = true →
  evaluate_model model X y max_epochs cv true w
  = (Raised ValueError,
     EvalWorld (objects w) (random_state w) (stdout w)
       (calls w ++ [call_train_test_split X y 0.3])).
Proof.
  intros Hrefused. unfold evaluate_model.
  rewrite !bind_run. unfold do_train_test_split at 1. by rewrite Hrefused.
Qed.


(** A whole call that gets its folds and has a label for every sample:
    what it returns and the world it leaves. *)
Lemma evaluate_model_run model X y max_epochs cv report w folds :
  cv_folds X cv = Ok folds → length X ≤ length y →
  (report = true → length y = length X) →
  let c0 := model_after_report X y max_epochs report (objects w model)
              (random_state w) in
  ∃ w',
    evaluate_model model X y max_epochs cv report w
    = (Ok (fold_scores X y max_epochs c0 folds), w')
    ∧ objects w' model = fit_folds X y max_epochs folds c0
    ∧ (∀ a, a ≠ model → objects w' a = objects w a)
    ∧ calls w'
      = calls w
        ++ report_calls model X y max_epochs report (objects w model) (random_state w)
        ++ [call_KFold cv; call_split (length X)]
        ++ folds_calls model X y max_epochs c0 folds.
Proof.
  intros Hfolds Hlen Hsame c0. subst c0.
  destruct (evaluate_model_phases model X y max_epochs cv report w)
    as (w1 & -> & Hobj1 & Hframe1 & _ & _ & Hcalls1).
  { intros Hreport. apply split_accepted; [auto|].
    apply cv_folds_ok in Hfolds as [? _]. lia. }
  destruct (kfold_phase_run model X y max_epochs cv folds w1 Hfolds Hlen)
    as (w' & -> & Hobj & Hframe & _ & _ & Hcalls).
  exists w'. rewrite <- Hobj1. split; [done|]. split; [done|]. split.
  - intros a Ha. by rewrite Hframe, Hframe1.
  - by rewrite Hcalls, Hcalls1, <- !app_assoc.
Qed.

Lemma fold_scores_length X y max_epochs (c : Clf) folds :
  length (fold_scores X y max_epochs c folds) = length folds.
Proof.
  revert c. induction folds as [|fold folds IH]; intros c; simpl; [done|].
  by rewrite IH.
Qed.

(** The score at position [i] is the score of fold [i], for the model as
    the folds before it left it. *)
Lemma fold_scores_lookup X y max_epochs folds :
  ∀ (c : Clf) i fold,
    folds !! i = Some fold →
    fold_scores X y max_epochs c folds !! i
    = Some (fold_score X y max_epochs
              (fit_folds X y max_epochs (take i folds) c) fold).
Proof.
  induction folds as [|fold0 folds IH]; intros c i fold Hi; [done|].
  destruct i as [|i]; simpl in *.
  - by injection Hi as ->.
  - by rewrite (IH _ _ _ Hi).
Qed.

Lemma fit_count_app (l1 l2 : list (sk_call feat label pred V)) :
  fit_count (l1 ++ l2) = fit_count l1 + fit_count l2.
Proof. unfold fit_count. by rewrite filter_app, length_app. Qed.

Lemma fit_count_folds_calls model X y max_epochs folds :
  ∀ c : Clf, fit_count (folds_calls model X y max_epochs c folds) = length folds.
Proof.
  induction folds as [|fold folds IH]; intros c; [done|].
  cbn [folds_calls]. rewrite fit_count_app, IH. done.
Qed.

Lemma fit_count_report_calls model X y max_epochs report (c : Clf) (e : E) :
  fit_count (report_calls model X y max_epochs report c e)
  = if report then 1 else 0.
Proof.
  unfold report_calls. destruct report; [|done].
  by destruct (train_test_split X y 0.3 e).1 as [[[? ?] ?] ?].
Qed.

Lemma fits_only_folds_calls model X y max_epochs folds :
  ∀ c : Clf, fits_only model (folds_calls model X y max_epochs c folds).
Proof.
  induction folds as [|fold folds IH]; intros c; [constructor|].
  cbn [folds_calls]. apply Forall_app. split; [|apply IH].
  by repeat constructor.
Qed.

Lemma fits_only_report_calls model X y max_epochs report (c : Clf) (e : E) :
  fits_only model (report_calls model X y max_epochs report c e).
Proof.
  unfold report_calls. destruct report; [|constructor].
  destruct (train_test_split X y 0.3 e).1 as [[[? ?] ?] ?].
  by repeat constructor.
Qed.

(** C4. A call with at least two folds, no more folds than samples and
    a label for every sample returns its list of scores; the list has
    one score per fold, [cv] in all, in the order of the folds. *)
Theorem evaluate_model_one_score_per_fold model X y max_epochs cv report w :
  (2 ≤ cv ≤ Z.of_nat (length X))%Z → length y = length X →
  ∃ scores w' folds,
    evaluate_model model X y max_epochs cv report w = (Ok scores, w')
    ∧ cv_folds X cv = Ok folds
    ∧ Z.of_nat (length scores) = cv
    ∧ length scores = length folds
    ∧ scores = fold_scores X y max_epochs
                 (model_after_report X y max_epochs report (objects w model)
                    (random_state w))
                 folds.
Proof.
  intros Hcv Hlen.
  pose proof (cv_folds_valid X cv Hcv) as Hfolds.
  destruct (evaluate_model_run model X y max_epochs cv report w _ Hfolds
              ltac:(lia) (λ _, Hlen)) as (w' & Hrun & _).
  eexists _, w', _. split; [exact Hrun|]. split; [exact Hfolds|].
  rewrite fold_scores_length.
  destruct (cv_folds_tests _ _ _ Hfolds) as [Hn _].
  split; [lia | done].
Qed.

(** C5. In such a call the score at position [i] is the scoring
    function applied to the labels [y[test_i]] and to the row-wise argmax
    of what the model predicts for [X[test_i]], the model having just
    been fitted on [X[train_i]], [y[train_i]] with [max_epochs], on top
    of the fits that came before. *)
Theorem evaluate_model_score_of_fold model X y max_epochs cv report w :
  (2 ≤ cv ≤ Z.of_nat (length X))%Z → length y = length X →
  ∃ scores w' folds,
    evaluate_model model X y max_epochs cv report w = (Ok scores, w')
    ∧ cv_folds X cv = Ok folds
    ∧ ∀ i train test,
        folds !! i = Some (train, test) →
        let before := fit_folds X y max_epochs (take i folds)
                        (model_after_report X y max_epochs report (objects w model)
                           (random_state w)) in
        let fitted := fit before (select X train) (select y train) max_epochs in
        np_index X train = Ok (select X train)
        ∧ np_index y train = Ok (select y train)
        ∧ np_index X test = Ok (select X test)
        ∧ np_index y test = Ok (select y test)
        ∧ scores !! i
          = Some (f1_score (select y test)
                    (np_argmax (predict fitted (select X test)) 1) "macro").
Proof.
  intros Hcv Hlen.
  pose proof (cv_folds_valid X cv Hcv) as Hfolds.
  destruct (evaluate_model_run model X y max_epochs cv report w _ Hfolds
              ltac:(lia) (λ _, Hlen)) as (w' & Hrun & _).
  eexists _, w', _. split; [exact Hrun|]. split; [exact Hfolds|].
  intros i train test Hi before fitted.
  pose proof (cv_folds_within X X cv _ Hfolds (le_n _)) as HX.
  pose proof (cv_folds_within X y cv _ Hfolds ltac:(lia)) as Hy.
  assert ((train, test) ∈ ((λ test, (train_of (length X) test, test))
            <$> test_blocks 0 (fold_sizes (length X) (Z.to_nat cv)))) as Hin.
  { apply list_elem_of_lookup. eauto. }
  split; [|split; [|split; [|split]]].
  - apply np_index_ok. intros j Hj. apply (HX _ Hin). by left.
  - apply np_index_ok. intros j Hj. apply (Hy _ Hin). by left.
  - apply np_index_ok. intros j Hj. apply (HX _ Hin). by right.
  - apply np_index_ok. intros j Hj. apply (Hy _ Hin). by right.
  - by rewrite (fold_scores_lookup _ _ _ _ _ _ _ Hi).
Qed.


End evaluate_model_facts.

(** ** Runs on the stand-ins *)

#[local] Existing Instances toy_Estimator toy_Toolkit.

Abbreviation toy_evaluate := (@evaluate_model _ _ _ _ _ _ _ toy_Estimator toy_Toolkit).

(** Seven samples, three folds, with the report: the calls, in order. *)
Example evaluate_model_toy_log :
  calls (toy_evaluate 0 toy_X toy_y (PyInt 10) 3 true toy_world).2 =
    [call_train_test_split toy_X toy_y 0.3;
     call_fit 0 [3; 0; 2; 5]%Z [0; 1; 0; 0] (PyInt 10);
     call_predict 0 [1; 4; 7]%Z;
     call_argmax [[1; 4]; [4; 4]; [7; 4]]%Z 1;
     call_classification_report [1; 0; 0] [1; 0; 0];
     call_print "report";
     call_KFold 3;
     call_split 7;
     call_fit 0 [5; 1; 4; 7]%Z [0; 1; 0; 0] (PyInt 10);
     call_predict 0 [3; 0; 2]%Z;
     call_argmax [[3; 8]; [0; 8]; [2; 8]]%Z 1;
     call_f1_score [0; 1; 0] [1; 1; 1] "macro";
     call_fit 0 [3; 0; 2; 4; 7]%Z [0; 1; 0; 0; 0] (PyInt 10);
     call_predict 0 [5; 1]%Z;
     call_argmax [[5; 13]; [1; 13]]%Z 1;
     call_f1_score [0; 1] [1; 1] "macro";
     call_fit 0 [3; 0; 2; 5; 1]%Z [0; 1; 0; 0; 1] (PyInt 10);
     call_predict 0 [4; 7]%Z;
     call_argmax [[4; 18]; [7; 18]]%Z 1;
     call_f1_score [0; 0] [1; 1] "macro"].
Proof. vm_compute. reflexivity. Qed.

Example evaluate_model_toy_scores :
  (toy_evaluate 0 toy_X toy_y (PyInt 10) 3 true toy_world).1 = Ok [1; 1; 0].
Proof. vm_compute. reflexivity. Qed.

(** One fold only: the splitter refuses, after the report. *)
Example evaluate_model_one_fold :
  let run := toy_evaluate 0 toy_X toy_y (PyInt 10) 1 true toy_world in
  run.1 = Raised ValueError ∧ stdout run.2 = ["report"] ∧ fit_count (calls run.2) = 1.
Proof. vm_compute. repeat split. Qed.

(** More folds than samples: the splitter refuses when asked to split. *)
Example evaluate_model_too_many_folds :
  let run := toy_evaluate 0 toy_X toy_y (PyInt 10) 8 false toy_world in
  run.1 = Raised ValueError ∧ calls run.2 = [call_KFold 8; call_split 7].
Proof. vm_compute. repeat split. Qed.

(** Fewer labels than samples, with the report: the train/test split
    is refused, before any fit. *)
Example evaluate_model_short_y_report :
  let run := toy_evaluate 0 toy_X (take 5 toy_y) (PyInt 10) 3 true toy_world in
  run.1 = Raised ValueError
  ∧ calls run.2 = [call_train_test_split toy_X (take 5 toy_y) 0.3]
  ∧ stdout run.2 = [].
Proof. vm_compute. repeat split. Qed.

(** One sample, with the report: the train part would be empty. *)
Example evaluate_model_one_sample_report :
  let run := toy_evaluate 0 [3%Z] [0] (PyInt 10) 3 true toy_world in
  run.1 = Raised ValueError ∧ fit_count (calls run.2) = 0 ∧ stdout run.2 = [].
Proof. vm_compute. repeat split. Qed.

(** Fewer labels than samples: indexing [y] raises in the first fold. *)
Example evaluate_model_short_y :
  let run := toy_evaluate 0 toy_X (take 5 toy_y) (PyInt 10) 3 false toy_world in
  run.1 = Raised IndexError ∧ fit_count (calls run.2) = 0.
Proof. vm_compute. repeat split. Qed.

(** The defaults: ten epochs, five folds, with the report. *)
Example evaluate_model_defaults_run :
  let run := evaluate_model_defaults 0 toy_X toy_y toy_world in
  run = toy_evaluate 0 toy_X toy_y (PyInt 10) 5 true toy_world
  ∧ length <$> run.1 = Ok 5
  ∧ fit_count (calls run.2) = 6.
Proof. vm_compute. repeat split. Qed.


(** Seven samples, three folds, with the report: three scores. *)
Lemma evaluate_model_one_score_per_fold_witness :
  ∃ scores w' folds,
    toy_evaluate 0 toy_X toy_y (PyInt 10) 3 true toy_world = (Ok scores, w')
    ∧ cv_folds toy_X 3 = Ok folds
    ∧ Z.of_nat (length scores) = 3%Z
    ∧ length scores = length folds
    ∧ scores = fold_scores toy_X toy_y (PyInt 10)
                 (model_after_report toy_X toy_y (PyInt 10) true
                    (objects toy_world 0) (random_state toy_world))
                 folds.
Proof.
  apply (evaluate_model_one_score_per_fold 0 toy_X toy_y (PyInt 10) 3 true toy_world).
  - simpl. lia.
  - reflexivity.
Defined.

(** Seven samples, three folds, without the report: each score is the
    score of its fold. *)
Lemma evaluate_model_score_of_fold_witness :
  ∃ scores w' folds,
    toy_evaluate 0 toy_X toy_y (PyInt 10) 3 false toy_world = (Ok scores, w')
    ∧ cv_folds toy_X 3 = Ok folds
    ∧ ∀ i train test,
        folds !! i = Some (train, test) →
        let before := fit_folds toy_X toy_y (PyInt 10) (take i folds)
                        (model_after_report toy_X toy_y (PyInt 10) false
                           (objects toy_world 0) (random_state toy_world)) in
        let fitted := fit before (select toy_X train) (select toy_y train) (PyInt 10) in
        np_index toy_X train = Ok (select toy_X train)
        ∧ np_index toy_y train = Ok (select toy_y train)
        ∧ np_index toy_X test = Ok (select toy_X test)
        ∧ np_index toy_y test = Ok (select toy_y test)
        ∧ scores !! i
          = Some (f1_score (select toy_y test)
                    (np_argmax (predict fitted (select toy_X test)) 1) "macro").
Proof.
  apply (evaluate_model_score_of_fold 0 toy_X toy_y (PyInt 10) 3 false toy_world).
  - simpl. lia.
  - reflexivity.
Defined.



(** * Further properties *)

(** ** Indexing with positions *)

Lemma np_index_out {A} (a : list A) (idx : list nat) i :
  i ∈ idx → length a ≤ i → np_index a idx = Raised IndexError.
Proof.
  intros Hi Hlen. unfold np_index.
  destruct (forallb _ idx) eqn:Hall; [|done].
  rewrite forallb_forall in Hall.
  apply list_elem_of_In, Hall, Nat.ltb_lt in Hi. lia.
Qed.

(** ** [evaluate_model]: what a call leaves alone *)

Section evaluate_model_effects.
Context {Clf E feat label pred score V : Type}.
Context `{!Estimator Clf feat label pred V, !Toolkit E feat label pred score}.
Implicit Types w : eval_world Clf E feat label pred V.
Implicit Types (X : list feat) (y : list label) (folds : list (list nat * list nat)).

(** Whether it returns or raises, the loop prints nothing, draws no
    random numbers, touches no object but [model], and fits nothing but
    [model]. *)
Lemma kfold_loop_effects model X y max_epochs folds :
  ∀ cv_scores w, ∃ r w',
    kfold_loop model X y max_epochs folds cv_scores w = (r, w')
    ∧ random_state w' = random_state w
    ∧ stdout w' = stdout w
    ∧ (∀ a, a ≠ model → objects w' a = objects w a)
    ∧ ∃ new, calls w' = calls w ++ new ∧ fits_only model new.
Proof.
  induction folds as [|[train test] folds IH]; intros cv_scores w.
  - eexists _, _. split; [reflexivity|]. repeat split.
    exists []. split; [by rewrite app_nil_r | constructor].
  - cbn [kfold_loop]. rewrite bind_run. unfold lift at 1.
    destruct (np_index_cases X train) as [-> | ->].
    2:{ eexists _, _. split; [reflexivity|]. repeat split.
        exists []. split; [by rewrite app_nil_r | constructor]. }
    rewrite bind_run. unfold lift at 1.
    destruct (np_index_cases y train) as [-> | ->].
    2:{ eexists _, _. split; [reflexivity|]. repeat split.
        exists []. split; [by rewrite app_nil_r | constructor]. }
    rewrite bind_run. unfold model_fit at 1.
    rewrite bind_run. unfold lift at 1.
    destruct (np_index_cases X test) as [-> | ->].
    2:{ eexists _, _. split; [reflexivity|]. simpl. repeat split.
        - intros a Ha. by apply fn_lookup_insert_ne.
        - eexists [_]. split; [done|]. by repeat constructor. }
    rewrite bind_run. unfold model_predict at 1.
    rewrite bind_run. unfold logged at 1.
    rewrite bind_run. unfold lift at 1.
    destruct (np_index_cases y test) as [-> | ->].
    2:{ eexists _, _. split; [reflexivity|]. simpl. repeat split.
        - intros a Ha. by apply fn_lookup_insert_ne.
        - eexists [_; _; _]. rewrite <- !app_assoc. split; [done|].
          by repeat constructor. }
    rewrite bind_run. unfold logged at 1.
    match goal with
    | |- context [kfold_loop _ _ _ _ folds ?acc ?w1] =>
        destruct (IH acc w1)
          as (r & w' & -> & Hrand & Hout & Hframe & new & Hcalls & Hnew)
    end.
    cbn [objects random_state stdout calls] in *.
    exists r, w'. split; [done|]. split; [done|]. split; [done|]. split.
    + intros a Ha. rewrite Hframe by done. by apply fn_lookup_insert_ne.
    + eexists ([_; _; _; _] ++ new). rewrite Hcalls, <- !app_assoc.
      split; [done|]. apply Forall_app. split; [by repeat constructor | done].
Qed.

(** The second phase of [evaluate_model], as before. *)
Abbreviation kfold_phase model X y max_epochs cv :=
  (kf ← logged (call_KFold cv) (new_KFold cv);
   folds ← logged (call_split (length X)) (KFold_split kf (length X));
   kfold_loop model X y max_epochs folds []).

Lemma kfold_phase_effects model X y max_epochs cv w1 :
  ∃ r w',
    kfold_phase model X y max_epochs cv w1 = (r, w')
    ∧ random_state w' = random_state w1
    ∧ stdout w' = stdout w1
    ∧ (∀ a, a ≠ model → objects w' a = objects w1 a)
    ∧ ∃ new, calls w' = calls w1 ++ new ∧ fits_only model new.
Proof.
  rewrite bind_run. unfold logged at 1.
  destruct (new_KFold cv) as [kf|].
  2:{ eexists _, _. split; [reflexivity|]. simpl. repeat split.
      eexists [_]. split; [done | by repeat constructor]. }
  rewrite bind_run. unfold logged at 1.
  destruct (KFold_split kf (length X)) as [folds|].
  2:{ eexists _, _. split; [reflexivity|]. simpl. repeat split.
      eexists [_; _]. rewrite <- !app_assoc.
      split; [done | by repeat constructor]. }
  match goal with
  | |- context [kfold_loop _ _ _ _ folds [] ?w2] =>
      destruct (kfold_loop_effects model X y max_epochs folds [] w2)
        as (r & w' & -> & Hrand & Hout & Hframe & new & Hcalls & Hnew)
  end.
  cbn [objects random_state stdout calls] in *.
  exists r, w'. split; [done|]. split; [done|]. split; [done|]. split; [done|].
  eexists ([_; _] ++ new). rewrite Hcalls, <- !app_assoc.
  split; [done|]. apply Forall_app. split; [by repeat constructor | done].
Qed.

(** X2. Whether it returns or raises, a call changes no object other
    than [model], and every [fit] it makes is a [fit] of [model]. *)
Theorem evaluate_model_touches_model_only model X y max_epochs cv report w :
  let w' := (evaluate_model model X y max_epochs cv report w).2 in
  (∀ a, a ≠ model → objects w' a = objects w a)
  ∧ ∃ new, calls w' = calls w ++ new ∧ fits_only model new.
Proof.
  cbv zeta.
  destruct (decide (report = true ∧ split_refused X y 0.3 = true))
    as [[-> Hrefused] | Haccepted].
  { rewrite evaluate_model_split_refused by done. cbn [snd objects calls].
    split; [done|]. eexists [_]. split; [done|]. by repeat constructor. }
  destruct (evaluate_model_phases model X y max_epochs cv report w)
    as (w1 & Hrun & _ & Hframe1 & _ & _ & Hcalls1).
  { intros ->. destruct (split_refused X y 0.3); [tauto | done]. }
  rewrite Hrun.
  destruct (kfold_phase_effects model X y max_epochs cv w1)
    as (r & w' & -> & _ & _ & Hframe & new & Hcalls & Hnew).
  cbn [snd]. split.
  - intros a Ha. by rewrite Hframe, Hframe1.
  - eexists (_ ++ new). rewrite Hcalls, Hcalls1, <- app_assoc.
    split; [done|]. apply Forall_app. split; [|done].
    apply fits_only_report_calls.
Qed.

(** A call whose splitter refuses: the report phase, then the error. *)
Lemma evaluate_model_refused model X y max_epochs cv report w err :
  cv_folds X cv = Raised err →
  (report = true → length y = length X ∧ 2 ≤ length X) →
  ∃ w',
    evaluate_model model X y max_epochs cv report w = (Raised err, w')
    ∧ objects w' model
      = model_after_report X y max_epochs report (objects w model) (random_state w)
    ∧ ∃ after_report,
        calls w'
        = calls w
          ++ report_calls model X y max_epochs report (objects w model)
               (random_state w)
          ++ call_KFold cv :: after_report
        ∧ (after_report = [] ∨ after_report = [call_split (length X)]).
Proof.
  intros Hfolds Hsplit.
  destruct (evaluate_model_phases model X y max_epochs cv report w)
    as (w1 & -> & Hobj1 & _ & _ & _ & Hcalls1).
  { intros Hreport. destruct (Hsplit Hreport). by apply split_accepted. }
  unfold cv_folds in Hfolds. rewrite bind_run. unfold logged at 1.
  destruct (new_KFold cv) as [kf|e0].
  - change (KFold_split kf (length X) = Raised err) in Hfolds.
    rewrite bind_run. unfold logged at 1. rewrite Hfolds.
    eexists. split; [reflexivity|]. cbn [objects calls].
    split; [exact Hobj1|].
    exists [call_split (length X)]. rewrite Hcalls1, <- !app_assoc.
    split; [reflexivity | by right].
  - cbv [mbind outcome_bind] in Hfolds. injection Hfolds as ->.
    eexists. split; [reflexivity|]. cbn [objects calls].
    split; [exact Hobj1|].
    exists []. rewrite Hcalls1, <- !app_assoc.
    split; [reflexivity | by left].
Qed.

(** X3. When the splitter refuses ([cv] below two, or above the number
    of samples), in a call whose report phase goes through ([report]
    off, or one label per sample and at least two samples), the call
    raises what the splitter raised; nothing catches it.  By then the
    report phase is over: with [report] on the model has been fitted
    once, on the train part of the split, and the report is printed; no
    fold has been run. *)
Theorem evaluate_model_splitter_refusal model X y max_epochs cv report w err :
  cv_folds X cv = Raised err →
  (report = true → length y = length X ∧ 2 ≤ length X) →
  ∃ w',
    evaluate_model model X y max_epochs cv report w = (Raised err, w')
    ∧ objects w' model
      = model_after_report X y max_epochs report (objects w model) (random_state w)
    ∧ ∃ after_report,
        calls w'
        = calls w
          ++ report_calls model X y max_epochs report (objects w model)
               (random_state w)
          ++ call_KFold cv :: after_report
        ∧ (after_report = [] ∨ after_report = [call_split (length X)])
        ∧ fit_count (report_calls model X y max_epochs report (objects w model)
                       (random_state w) ++ call_KFold cv :: after_report)
          = if report then 1 else 0.
Proof.
  intros Hfolds Hsplit.
  destruct (evaluate_model_refused model X y max_epochs cv report w err Hfolds
              Hsplit)
    as (w' & Hrun & Hobj & after_report & Hcalls & Hafter).
  exists w'. split; [exact Hrun|]. split; [exact Hobj|].
  exists after_report. split; [exact Hcalls|]. split; [exact Hafter|].
  rewrite fit_count_app, fit_count_report_calls.
  destruct Hafter as [-> | ->].
  - change (fit_count [call_KFold cv]) with 0. lia.
  - change (fit_count [call_KFold cv; call_split (length X)]) with 0. lia.
Qed.

(** With at least two folds and no more folds than samples, the first
    test block starts at 0 and stops short of the last position. *)
Lemma first_test_block n k :
  2 ≤ k → k ≤ n →
  ∃ s0 blocks, test_blocks 0 (fold_sizes n k) = seq 0 s0 :: blocks ∧ s0 < n.
Proof.
  intros Hk Hn. destruct k as [|k]; [lia|].
  unfold fold_sizes. cbn [seq fmap list_fmap test_blocks].
  eexists _, _. split; [reflexivity|].
  pose proof (Nat.div_mod_eq n (S k)) as Hdiv.
  pose proof (Nat.mod_upper_bound n (S k) ltac:(lia)) as Hmod.
  assert (1 ≤ n / S k) by (apply Nat.div_le_lower_bound; lia).
  destruct (Nat.ltb_spec 0 (n mod S k)); nia.
Qed.

(** X4. Fewer labels than samples, without the report: the call raises
    [IndexError] when it indexes [y] for the first fold.  Nothing has been
    fitted or printed by then and every object is as it was. *)
Theorem evaluate_model_short_labels model X y max_epochs cv w :
  (2 ≤ cv ≤ Z.of_nat (length X))%Z → length y < length X →
  ∃ w',
    evaluate_model model X y max_epochs cv false w = (Raised IndexError, w')
    ∧ (∀ a, objects w' a = objects w a)
    ∧ stdout w' = stdout w
    ∧ calls w' = calls w ++ [call_KFold cv; call_split (length X)].
Proof.
  intros Hcv Hlen.
  destruct (evaluate_model_phases model X y max_epochs cv false w ltac:(done))
    as (w1 & -> & Hobj1 & Hframe1 & _ & Hout1 & Hcalls1).
  pose proof (cv_folds_valid X cv Hcv) as Hfolds.
  destruct (first_test_block (length X) (Z.to_nat cv)) as (s0 & blocks & Hblocks & Hs0);
    [lia | lia |].
  rewrite Hblocks in Hfolds. rewrite fmap_cons in Hfolds.
  unfold cv_folds in Hfolds. rewrite bind_run. unfold logged at 1.
  destruct (new_KFold cv) as [kf|]; [|done].
  change (KFold_split kf (length X) = Ok
            ((train_of (length X) (seq 0 s0), seq 0 s0)
               :: ((λ test, (train_of (length X) test, test)) <$> blocks)))
    in Hfolds.
  rewrite bind_run. unfold logged at 1. rewrite Hfolds.
  cbn [kfold_loop]. rewrite bind_run. unfold lift at 1.
  rewrite np_index_ok; [|by intros i [? _]%elem_of_train_of].
  rewrite bind_run. unfold lift at 1.
  rewrite (np_index_out y _ (length X - 1)); [| |lia].
  2:{ apply elem_of_train_of. split; [lia|]. rewrite elem_of_seq. lia. }
  eexists. split; [reflexivity|]. cbn [objects stdout calls].
  split; [|split].
  - intros a. destruct (decide (a = model)) as [->|Ha]; [|by apply Hframe1].
    by rewrite Hobj1.
  - rewrite Hout1. unfold report_output. by rewrite app_nil_r.
  - rewrite Hcalls1. unfold report_calls. by rewrite app_nil_r, <- !app_assoc.
Qed.

Lemma select_take {A} n (a : list A) (idx : list nat) :
  (∀ i, i ∈ idx → i < n) → select (take n a) idx = select a idx.
Proof.
  unfold select. induction idx as [|i idx IH]; intros Hidx; [done|].
  cbn [omap list_omap]. rewrite lookup_take_lt by (apply Hidx; by left).
  fold (@omap list _ A nat).
  rewrite IH; [done|]. intros j Hj. apply Hidx. by right.
Qed.

(** Labels that agree on the positions of the folds give the same fits,
    scores and calls. *)
Lemma folds_labels_ext model X y y' max_epochs folds :
  (∀ fold, fold ∈ folds →
     select y fold.1 = select y' fold.1 ∧ select y fold.2 = select y' fold.2) →
  ∀ c : Clf,
    fold_scores X y max_epochs c folds = fold_scores X y' max_epochs c folds
    ∧ fit_folds X y max_epochs folds c = fit_folds X y' max_epochs folds c
    ∧ folds_calls model X y max_epochs c folds
      = folds_calls model X y' max_epochs c folds.
Proof.
  induction folds as [|fold folds IH]; intros Hsame c; [done|].
  destruct (Hsame fold ltac:(by left)) as [Htrain Htest].
  assert (fit_fold X y max_epochs c fold = fit_fold X y' max_epochs c fold) as Hfit.
  { unfold fit_fold. by rewrite Htrain. }
  destruct (IH (λ f Hf, Hsame f ltac:(by right)) (fit_fold X y' max_epochs c fold))
    as (Hscores & Hfits & Hcalls).
  cbn [fold_scores folds_calls]. unfold fit_folds in *. cbn [foldl].
  unfold fold_score. rewrite Hfit, Htrain, Htest, Hscores, Hfits, Hcalls. done.
Qed.

(** X5. More labels than samples, without the report: the surplus is
    never looked at.  The call returns the same scores, leaves the same
    model and makes the same library calls as with [y] cut to the length
    of [X]. *)
Theorem evaluate_model_surplus_labels model X y max_epochs cv w :
  (2 ≤ cv ≤ Z.of_nat (length X))%Z → length X ≤ length y →
  ∃ scores w1 w2,
    evaluate_model model X y max_epochs cv false w = (Ok scores, w1)
    ∧ evaluate_model model X (take (length X) y) max_epochs cv false w
      = (Ok scores, w2)
    ∧ objects w1 model = objects w2 model
    ∧ calls w1 = calls w2.
Proof.
  intros Hcv Hlen.
  pose proof (cv_folds_valid X cv Hcv) as Hfolds.
  destruct (evaluate_model_run model X y max_epochs cv false w _ Hfolds Hlen
              ltac:(done))
    as (w1 & Hrun1 & Hobj1 & _ & Hcalls1).
  destruct (evaluate_model_run model X (take (length X) y) max_epochs cv false w _
              Hfolds)
    as (w2 & Hrun2 & Hobj2 & _ & Hcalls2); [by rewrite length_take_le|done|].
  cbn [model_after_report report_calls] in *.
  pose proof (cv_folds_within X X cv _ Hfolds (le_n _)) as HX.
  edestruct (folds_labels_ext model X (take (length X) y) y max_epochs) as
    (Hscores & Hfits & Hfcalls).
  { intros fold Hfold. split; apply select_take; intros i Hi;
      apply (HX fold Hfold); [by left | by right]. }
  eexists _, w1, w2. split; [exact Hrun1|]. split.
  - rewrite Hrun2. by rewrite Hscores.
  - split.
    + by rewrite Hobj1, Hobj2, Hfits.
    + by rewrite Hcalls1, Hcalls2, Hfcalls.
Qed.

Lemma select_app {A} (a : list A) (idx1 idx2 : list nat) :
  select a (idx1 ++ idx2) = select a idx1 ++ select a idx2.
Proof. apply omap_app. Qed.

Lemma select_concat {A} (a : list A) (blocks : list (list nat)) :
  concat (select a <$> blocks) = select a (concat blocks).
Proof.
  induction blocks as [|b blocks IH]; [done|].
  cbn [fmap list_fmap concat]. fold (@fmap list _ _ _ (select a) blocks).
  by rewrite select_app, <- IH.
Qed.

Lemma select_app_l {A} (a b : list A) (idx : list nat) :
  (∀ i, i ∈ idx → i < length a) → select (a ++ b) idx = select a idx.
Proof.
  unfold select. induction idx as [|i idx IH]; intros Hidx; [done|].
  cbn [omap list_omap]. rewrite lookup_app_l by (apply Hidx; by left).
  fold (@omap list _ A nat).
  rewrite IH; [done|]. intros j Hj. apply Hidx. by right.
Qed.

(** Indexing with all positions in order gives the array back. *)
Lemma select_all {A} (a : list A) : select a (seq 0 (length a)) = a.
Proof.
  induction a as [|x a IH] using rev_ind; [done|].
  rewrite length_app, Nat.add_1_r, seq_S, select_app. cbn [plus].
  f_equal.
  - rewrite select_app_l; [done|]. intros i Hi%elem_of_seq. lia.
  - unfold select. simpl. by rewrite list_lookup_middle.
Qed.

Lemma predicted_samples_app (l1 l2 : list (sk_call feat label pred V)) :
  predicted_samples (l1 ++ l2) = predicted_samples l1 ++ predicted_samples l2.
Proof. unfold predicted_samples. by rewrite omap_app, concat_app. Qed.

Lemma scored_labels_app (l1 l2 : list (sk_call feat label pred V)) :
  scored_labels (l1 ++ l2) = scored_labels l1 ++ scored_labels l2.
Proof. unfold scored_labels. by rewrite omap_app, concat_app. Qed.

(** What the calls of the folds predict and score: the test parts of
    the folds, one after the other. *)
Lemma folds_calls_test_parts model X y max_epochs folds :
  ∀ c : Clf,
    predicted_samples (folds_calls model X y max_epochs c folds)
    = concat (select X <$> folds.*2)
    ∧ scored_labels (folds_calls model X y max_epochs c folds)
      = concat (select y <$> folds.*2).
Proof.
  induction folds as [|fold folds IH]; intros c; [done|].
  cbn [folds_calls]. rewrite predicted_samples_app, scored_labels_app.
  destruct (IH (fit_fold X y max_epochs c fold)) as [-> ->].
  split.
  - unfold predicted_samples at 1. simpl. by rewrite app_nil_r.
  - unfold scored_labels at 1. simpl. by rewrite app_nil_r.
Qed.


(** X7. The model is never reset: a second call on the same object,
    without the report, starts from the model as the first call left it.
    Its scores are those of the folds run on top of all the fits of the
    first call, and after it the object has gone through the fits of the
    folds twice over. *)
Theorem evaluate_model_twice model X y max_epochs cv w :
  (2 ≤ cv ≤ Z.of_nat (length X))%Z → length y = length X →
  ∃ folds scores1 w1 scores2 w2,
    cv_folds X cv = Ok folds
    ∧ evaluate_model model X y max_epochs cv false w = (Ok scores1, w1)
    ∧ evaluate_model model X y max_epochs cv false w1 = (Ok scores2, w2)
    ∧ scores1 = fold_scores X y max_epochs (objects w model) folds
    ∧ scores2
      = fold_scores X y max_epochs
          (fit_folds X y max_epochs folds (objects w model)) folds
    ∧ objects w2 model
      = fit_folds X y max_epochs (folds ++ folds) (objects w model).
Proof.
  intros Hcv Hlen.
  pose proof (cv_folds_valid X cv Hcv) as Hfolds.
  destruct (evaluate_model_run model X y max_epochs cv false w _ Hfolds
              ltac:(lia) ltac:(done)) as (w1 & Hrun1 & Hobj1 & _).
  destruct (evaluate_model_run model X y max_epochs cv false w1 _ Hfolds
              ltac:(lia) ltac:(done)) as (w2 & Hrun2 & Hobj2 & _).
  cbn [model_after_report] in *.
  eexists _, _, w1, _, w2. split; [exact Hfolds|].
  split; [exact Hrun1|]. split; [rewrite Hrun2, Hobj1; reflexivity|].
  split; [done|]. split; [done|].
  rewrite Hobj2, Hobj1. unfold fit_folds. by rewrite foldl_app.
Qed.

End evaluate_model_effects.

(** ** [load_embeddings]: what comes back *)

(** X9. [load_embeddings] returns a table exactly when the file is
    there, the parser yields a table from it, re-indexing that table
    succeeds, and its label levels and columns add up to three.  The
    table returned has the default row labels; each of its rows is the
    old labels of the row followed by the old row; the column names of
    the file are gone. *)
Theorem load_embeddings_result `{!TableReader} (fs : gmap string string)
    (file_path delim : string) (emb : DataFrame) :
  load_embeddings fs file_path delim = Ok emb
  ↔ ∃ text df t,
      fs !! file_path = Some text
      ∧ read_table text " " = Ok df
      ∧ reset_index df = Ok t
      ∧ nlevels (index df) + length (columns df) = 3
      ∧ emb = Frame RangeIndex ["node"; "x"; "y"]
                (zip_with app (index_column_values df) (rows df)).
Proof.
  rewrite load_embeddings_unfold.
  unfold table_after_reset_index, pd_read_table.
  split.
  - destruct (fs !! file_path) as [text|]; [|done].
    destruct (read_table text " ") as [df|] eqn:Hread; [|done].
    cbn [mbind outcome_bind].
    destruct (reset_index df) as [t|] eqn:Hreset; [|done].
    pose proof (reset_index_columns _ _ Hreset) as Hcols.
    destruct (decide (length (columns t) = 3)) as [Hlen|Hlen].
    + rewrite set_columns_ok by done. intros [= <-].
      exists text, df, t. repeat split; [done | done | lia |].
      unfold reset_index, mbind, outcome_bind in Hreset.
      destruct (insert_columns _ _); [|done]. by injection Hreset as <-.
    + by rewrite set_columns_mismatch.
  - intros (text & df & t & -> & -> & Hreset & Hsum & ->).
    cbn [mbind outcome_bind]. rewrite Hreset.
    pose proof (reset_index_columns _ _ Hreset) as Hcols.
    rewrite set_columns_ok by (simpl; lia).
    unfold reset_index, mbind, outcome_bind in Hreset.
    destruct (insert_columns _ _); [|done]. by injection Hreset as <-.
Qed.

(** ** [evaluate_model] on no samples *)

Lemma cv_folds_empty {A} (cv : Z) : cv_folds (@nil A) cv = Raised ValueError.
Proof.
  unfold cv_folds, new_KFold. destruct (Z.leb_spec cv 1); [done|].
  cbn [mbind outcome_bind]. unfold KFold_split. cbn [n_splits length].
  by destruct (Nat.ltb_spec 0 (Z.to_nat cv)); [|lia].
Qed.

(** X11. On an empty [X], without the report, the call raises
    [ValueError] whatever [cv] is: below two the splitter cannot be
    built, from two on there are more folds than samples.  Nothing is
    fitted. *)
Theorem evaluate_model_no_samples {Clf E feat label pred score V : Type}
    `{!Estimator Clf feat label pred V, !Toolkit E feat label pred score}
    (model : nat) (y : list label) (max_epochs : V) (cv : Z)
    (w : eval_world Clf E feat label pred V) :
  ∃ w',
    evaluate_model model [] y max_epochs cv false w = (Raised ValueError, w')
    ∧ objects w' model = objects w model
    ∧ fit_count (calls w') = fit_count (calls w).
Proof.
  destruct (evaluate_model_refused model [] y max_epochs cv false w ValueError
              (cv_folds_empty cv) ltac:(done))
    as (w' & Hrun & Hobj & after_report & Hcalls & Hafter).
  exists w'. split; [exact Hrun|]. split; [exact Hobj|].
  rewrite Hcalls, !fit_count_app, fit_count_report_calls.
  destruct Hafter as [-> | ->].
  - change (fit_count [call_KFold cv]) with 0. lia.
  - change (fit_count [call_KFold cv; call_split (@length feat [])]) with 0. lia.
Qed.

(** ** The further properties on the stand-ins *)

(** One fold asked for, with the report. *)
Lemma evaluate_model_splitter_refusal_witness :
  ∃ w',
    toy_evaluate 0 toy_X toy_y (PyInt 10) 1 true toy_world = (Raised ValueError, w')
    ∧ objects w' 0
      = model_after_report toy_X toy_y (PyInt 10) true (objects toy_world 0)
          (random_state toy_world)
    ∧ ∃ after_report,
        calls w'
        = calls toy_world
          ++ report_calls 0 toy_X toy_y (PyInt 10) true (objects toy_world 0)
               (random_state toy_world)
          ++ call_KFold 1 :: after_report
        ∧ (after_report = [] ∨ after_report = [call_split (length toy_X)])
        ∧ fit_count (report_calls 0 toy_X toy_y (PyInt 10) true (objects toy_world 0)
                       (random_state toy_world) ++ call_KFold 1 :: after_report)
          = 1.
Proof.
  apply (evaluate_model_splitter_refusal 0 toy_X toy_y (PyInt 10) 1 true toy_world
           ValueError).
  - reflexivity.
  - intros _. simpl. split; [reflexivity | lia].
Defined.

(** Seven samples and five labels. *)
Lemma evaluate_model_short_labels_witness :
  ∃ w',
    toy_evaluate 0 toy_X (take 5 toy_y) (PyInt 10) 3 false toy_world
    = (Raised IndexError, w')
    ∧ (∀ a, objects w' a = objects toy_world a)
    ∧ stdout w' = stdout toy_world
    ∧ calls w' = calls toy_world ++ [call_KFold 3; call_split (length toy_X)].
Proof.
  apply (evaluate_model_short_labels 0 toy_X (take 5 toy_y) (PyInt 10) 3 toy_world).
  - simpl. lia.
  - simpl. lia.
Defined.

(** Seven samples and nine labels. *)
Lemma evaluate_model_surplus_labels_witness :
  ∃ scores w1 w2,
    toy_evaluate 0 toy_X (toy_y ++ [1; 1]) (PyInt 10) 3 false toy_world
    = (Ok scores, w1)
    ∧ toy_evaluate 0 toy_X (take (length toy_X) (toy_y ++ [1; 1])) (PyInt 10) 3 false
        toy_world
      = (Ok scores, w2)
    ∧ objects w1 0 = objects w2 0
    ∧ calls w1 = calls w2.
Proof.
  apply (evaluate_model_surplus_labels 0 toy_X (toy_y ++ [1; 1]) (PyInt 10) 3
           toy_world).
  - simpl. lia.
  - simpl. lia.
Defined.


Lemma evaluate_model_twice_witness :
  ∃ folds scores1 w1 scores2 w2,
    cv_folds toy_X 3 = Ok folds
    ∧ toy_evaluate 0 toy_X toy_y (PyInt 10) 3 false toy_world = (Ok scores1, w1)
    ∧ toy_evaluate 0 toy_X toy_y (PyInt 10) 3 false w1 = (Ok scores2, w2)
    ∧ scores1 = fold_scores toy_X toy_y (PyInt 10) (objects toy_world 0) folds
    ∧ scores2
      = fold_scores toy_X toy_y (PyInt 10)
          (fit_folds toy_X toy_y (PyInt 10) folds (objects toy_world 0)) folds
    ∧ objects w2 0
      = fit_folds toy_X toy_y (PyInt 10) (folds ++ folds) (objects toy_world 0).
Proof.
  apply (evaluate_model_twice 0 toy_X toy_y (PyInt 10) 3 toy_world).
  - simpl. lia.
  - reflexivity.
Defined.

(** On the stand-ins the second call does score differently: the model
    has seen fourteen more samples by the time it starts. *)
Example evaluate_model_twice_scores :
  let run1 := toy_evaluate 0 toy_X toy_y (PyInt 10) 3 false toy_world in
  let run2 := toy_evaluate 0 toy_X toy_y (PyInt 10) 3 false run1.2 in
  objects run1.2 0 = 14 ∧ objects run2.2 0 = 28
  ∧ calls run2.2 ≠ calls run1.2 ++ calls run1.2.
Proof. vm_compute. repeat split. discriminate. Qed.
